(** * StudyBuddy: the quiz parser, the prompt builder and the tab handlers

    A shallow embedding of the application code of the StudyBuddy demo
    (QuizTab, TextToAudioTab, VoiceQATab and App) and the properties of it
    that the specification states.

    JavaScript strings are sequences of UTF-16 code units; they are modelled
    as lists of code units.  React state is modelled as a record per
    component, a handler as a function from the state (and from what the
    external SDK answers) to the new state and the calls it issued. *)

From Stdlib Require Import String Ascii.
From Stdlib Require Import List NArith ZArith Bool Arith Lia Floats.
Import ListNotations.

Set Implicit Arguments.

(* ===================================================================== *)
(** ** JavaScript strings *)
(* ===================================================================== *)

Module JsString.

(** A UTF-16 code unit. *)
Definition char := N.

Definition jsstring := list char.

(** Code units of a literal made of ASCII characters. *)
Definition str (s : string) : jsstring :=
  map N_of_ascii (list_ascii_of_string s).

Definition nl : char := 10%N.        (* '\n' *)
Definition dquote : char := 34%N.    (* the double quote *)
Definition space : char := 32%N.

Definition char_eqb (a b : char) : bool := N.eqb a b.

(** [WhiteSpace] and [LineTerminator] of ECMAScript, the code points that
    [String.prototype.trim] strips. *)
Definition is_ws (c : char) : bool :=
  (((9 <=? c) && (c <=? 13))
   || (c =? 32) || (c =? 160) || (c =? 5760)
   || ((8192 <=? c) && (c <=? 8202))
   || (c =? 8232) || (c =? 8233) || (c =? 8239) || (c =? 8287)
   || (c =? 12288) || (c =? 65279))%N.

(** [\d] of a regular expression: the ten ASCII digits. *)
Definition is_digit (c : char) : bool := ((48 <=? c) && (c <=? 57))%N.

Fixpoint trimStart (s : jsstring) : jsstring :=
  match s with
  | [] => []
  | c :: s' => if is_ws c then trimStart s' else s
  end.

Fixpoint trimEnd (s : jsstring) : jsstring :=
  match s with
  | [] => []
  | c :: s' =>
      match trimEnd s' with
      | [] => if is_ws c then [] else [c]
      | r => c :: r
      end
  end.

(** [s.trim()] *)
Definition trim (s : jsstring) : jsstring := trimEnd (trimStart s).

(** [s.startsWith(p)] *)
Fixpoint startsWith (s p : jsstring) {struct p} : bool :=
  match p with
  | [] => true
  | a :: p' =>
      match s with
      | [] => false
      | b :: s' => char_eqb b a && startsWith s' p'
      end
  end.

(** [s.includes(p)] *)
Fixpoint includes (s p : jsstring) : bool :=
  startsWith s p ||
  match s with
  | [] => false
  | _ :: s' => includes s' p
  end.

(** [s.substring(n)] for a non-negative integer [n]. *)
Definition substring (n : nat) (s : jsstring) : jsstring := skipn n s.

(** Truthiness of a string: the empty string is the only falsy one. *)
Definition truthy (s : jsstring) : bool :=
  match s with [] => false | _ :: _ => true end.

(** [s.split('\n')]: never the empty array, [''.split('\n')] is [['']]. *)
Fixpoint split_nl (s : jsstring) : list jsstring :=
  match s with
  | [] => [[]]
  | c :: s' =>
      if char_eqb c nl then [] :: split_nl s'
      else match split_nl s' with
           | l :: ls => (c :: l) :: ls
           | [] => [[c]]
           end
  end.

(** [ls.join('\n')] *)
Fixpoint join_nl (ls : list jsstring) : jsstring :=
  match ls with
  | [] => []
  | [l] => l
  | l :: ls' => l ++ nl :: join_nl ls'
  end.

(** Decimal digits of a non-negative integer, as [String(n)] prints it. *)
Fixpoint digits_fuel (fuel : nat) (n : N) (acc : jsstring) : jsstring :=
  match fuel with
  | O => acc
  | S fuel' =>
      let acc' := (48 + n mod 10)%N :: acc in
      if (n <? 10)%N then acc' else digits_fuel fuel' (n / 10)%N acc'
  end.

Definition of_nat (n : nat) : jsstring :=
  digits_fuel (S n) (N.of_nat n) [].

End JsString.

Import JsString.

(* ===================================================================== *)
(** ** Values thrown by rejected promises *)
(* ===================================================================== *)

(** What a [catch] clause receives: an [Error] object with its [message],
    or any other value, of which only [String(err)] is ever used. *)
Inductive thrown : Type :=
| ErrorObject (message : jsstring)
| OtherValue (as_string : jsstring).

(** [err instanceof Error ? err.message : fallback] *)
Definition message_or (err : thrown) (fallback : jsstring) : jsstring :=
  match err with
  | ErrorObject m => m
  | OtherValue _ => fallback
  end.

(** [err instanceof Error ? err.message : String(err)] *)
Definition message_or_String (err : thrown) : jsstring :=
  match err with
  | ErrorObject m => m
  | OtherValue s => s
  end.

(** Lines written with [console.error]. *)
Definition console := list (jsstring * thrown).

(* ===================================================================== *)
(** ** Handlers as effectful programs *)
(* ===================================================================== *)

(** A handler runs against the component state, issues calls to the SDK
    and to the browser, writes to the console, and either returns or
    throws.  What an awaited call answers is an input of the model. *)
Section Effects.

Variables St Call : Type.

Record world := World {
  state : St;
  calls : list Call;
  logged : console
}.

Inductive outcome (A : Type) : Type :=
| Returned (a : A)
| Threw (err : thrown).

Definition M (A : Type) : Type := world -> outcome A * world.

Definition ret {A} (a : A) : M A := fun w => (Returned a, w).

Definition bind {A B} (m : M A) (k : A -> M B) : M B :=
  fun w =>
    match m w with
    | (Returned a, w') => k a w'
    | (Threw _ err, w') => (Threw B err, w')
    end.

Definition get : M St := fun w => (Returned (state w), w).

(** A [setX(...)] of React. *)
Definition modify (f : St -> St) : M unit :=
  fun w => (Returned tt,
            {| state := f (state w); calls := calls w; logged := logged w |}).

(** A call whose answer is given: [Returned] for a value or a resolved
    promise, [Threw] for an exception or a rejected promise. *)
Definition await {A} (c : Call) (answer : outcome A) : M A :=
  fun w => (answer,
            {| state := state w; calls := calls w ++ [c];
               logged := logged w |}).

(** A call that returns nothing and does not throw. *)
Definition invoke (c : Call) : M unit := await c (Returned tt).

Definition console_error (msg : jsstring) (err : thrown) : M unit :=
  fun w => (Returned tt,
            {| state := state w; calls := calls w;
               logged := logged w ++ [(msg, err)] |}).

(** [try { body } catch (err) { handler }] *)
Definition try_catch {A} (body : M A) (handler : thrown -> M A) : M A :=
  fun w =>
    match body w with
    | (Returned a, w') => (Returned a, w')
    | (Threw _ err, w') => handler err w'
    end.

(** [try { body } finally { final }] *)
Definition try_finally {A} (body : M A) (final : M unit) : M A :=
  fun w =>
    match body w with
    | (r, w') =>
        match final w' with
        | (Returned _, w'') => (r, w'')
        | (Threw _ err, w'') => (Threw A err, w'')
        end
    end.

Definition when (b : bool) (m : M unit) : M unit :=
  if b then m else ret tt.

(** An expression whose evaluation is given: its value, or what it
    throws. *)
Definition evaluate {A} (o : outcome A) : M A := fun w => (o, w).

(** State updates that are queued together and applied by the one render
    that follows.  The render runs the updater functions; when one of
    them throws, the render is given up and none of the updates is
    applied. *)
Definition rendered (updates : M unit) : M unit :=
  fun w =>
    match updates w with
    | (Returned a, w') => (Returned a, w')
    | (Threw _ err, w') =>
        (Threw unit err,
         {| state := state w; calls := calls w'; logged := logged w' |})
    end.

(** Where a handler starts: the state of the component, no call made yet
    and nothing logged. *)
Definition start (s : St) : world :=
  {| state := s; calls := []; logged := [] |}.

End Effects.

Arguments Returned {A} a.
Arguments Threw {A} err.
Arguments ret {St Call A} a.
Arguments get {St Call}.
Arguments modify {St Call} f.
Arguments await {St Call A} c answer.
Arguments invoke {St Call} c.
Arguments console_error {St Call} msg err.
Arguments when {St Call} b m.
Arguments evaluate {St Call A} o.
Arguments rendered {St Call} updates.
Arguments start {St} Call s.

Declare Scope eff_scope.
Delimit Scope eff_scope with eff.
Notation "x <- m ;; k" := (bind m (fun x => k))
  (at level 61, m at next level, right associativity) : eff_scope.
Notation "m ;; k" := (bind m (fun _ => k))
  (at level 61, right associativity) : eff_scope.
Open Scope eff_scope.

(* ===================================================================== *)
(** ** QuizTab *)
(* ===================================================================== *)

Module QuizTab.

Record QuizQuestion := {
  question : jsstring;
  answer : jsstring;
  explanation : jsstring
}.

Inductive Difficulty := easy | medium | hard.

Definition difficulty_str (d : Difficulty) : jsstring :=
  match d with
  | easy => str "easy"
  | medium => str "medium"
  | hard => str "hard"
  end.

(** *** The regular expression [/Q\d*:/] *)

Fixpoint skip_digits (s : jsstring) : jsstring :=
  match s with
  | [] => []
  | c :: s' => if is_digit c then skip_digits s' else s
  end.

(** A match of [/Q\d*:/] anchored at the start of [s]: what follows it.
    The star is greedy and a colon is no digit, so backtracking never
    finds a match that skipping all the digits misses. *)
Definition match_marker (s : jsstring) : option jsstring :=
  match s with
  | c :: s' =>
      if char_eqb c 81%N (* Q *) then
        match skip_digits s' with
        | d :: r => if char_eqb d 58%N (* : *) then Some r else None
        | [] => None
        end
      else None
  | [] => None
  end.

(** [response.split(/Q\d*:/)]: scan for the leftmost match, push what
    precedes it, go on after it; the text after the last match is pushed
    at the end.  [cur] is the text since the last match.  The fuel bounds
    the number of positions tried, the length of the text is enough. *)
Fixpoint split_marker_from (fuel : nat) (cur s : jsstring) : list jsstring :=
  match fuel with
  | O => [cur ++ s]
  | S fuel' =>
      match s with
      | [] => [cur]
      | c :: s' =>
          match match_marker s with
          | Some r => cur :: split_marker_from fuel' [] r
          | None => split_marker_from fuel' (cur ++ [c]) s'
          end
      end
  end.

Definition split_marker (s : jsstring) : list jsstring :=
  split_marker_from (length s) [] s.

(** [response.split(/Q\d*:/).filter(p => p.trim())] *)
Definition parts (response : jsstring) : list jsstring :=
  filter (fun p => truthy (trim p)) (split_marker response).

(** [part.split('\n').map(l => l.trim()).filter(l => l)] *)
Definition lines_of (part : jsstring) : list jsstring :=
  filter truthy (map trim (split_nl part)).

Definition A_ := str "A:".
Definition E_ := str "E:".
Definition Q_ := str "Q:".

(** The inner [while] loop after an [A:] line: [rest] is [lines] from
    index [j] on. *)
Fixpoint answer_rest (rest : list jsstring) (answer : jsstring) : jsstring :=
  match rest with
  | [] => answer
  | l :: rest' =>
      if negb (startsWith l E_) && negb (startsWith l Q_) then
        answer_rest rest'
          (if negb (startsWith l A_) then answer ++ space :: trim l
           else answer)
      else answer
  end.

(** The inner [while] loop after an [E:] line. *)
Fixpoint explanation_rest (rest : list jsstring) (explanation : jsstring)
  : jsstring :=
  match rest with
  | [] => explanation
  | l :: rest' =>
      if negb (startsWith l Q_) && negb (startsWith l A_) then
        explanation_rest rest'
          (if negb (startsWith l E_) then explanation ++ space :: trim l
           else explanation)
      else explanation
  end.

(** The [for] loop over the lines of a part: [lines] is what is left from
    index [i] on, the three variables are threaded through. *)
Fixpoint scan_lines (lines : list jsstring) (q a e : jsstring)
  : jsstring * jsstring * jsstring :=
  match lines with
  | [] => (q, a, e)
  | line :: rest =>
      if startsWith line A_ then
        scan_lines rest q (answer_rest rest (trim (substring 2 line))) e
      else if startsWith line E_ then
        scan_lines rest q a (explanation_rest rest (trim (substring 2 line)))
      else if negb (truthy q) && negb (startsWith line A_)
              && negb (startsWith line E_) then
        scan_lines rest
          (if truthy q then q ++ space :: line else line) a e
      else scan_lines rest q a e
  end.

(** The body of the loop over the parts: the item pushed, if any. *)
Definition parse_part (part : jsstring) : option QuizQuestion :=
  let '(q, a, e) := scan_lines (lines_of part) [] [] [] in
  if truthy q && truthy a then
    Some {| question := q; answer := a; explanation := e |}
  else None.

Definition push_part (questions : list QuizQuestion) (part : jsstring)
  : list QuizQuestion :=
  match parse_part part with
  | Some item => questions ++ [item]
  | None => questions
  end.

Definition parseQuizResponse (response : jsstring) : list QuizQuestion :=
  fold_left push_part (parts response) [].

(** *** Auxiliary notions for the proofs *)

(** The items a part adds to the result. *)
Definition items_of_part (part : jsstring) : list QuizQuestion :=
  match parse_part part with
  | Some item => [item]
  | None => []
  end.

(** The split of [s] with [cur] read since the last marker. *)
Definition split_from (cur s : jsstring) : list jsstring :=
  split_marker_from (length s) cur s.

(** What follows a block: nothing, or the marker of the next block. *)
Definition at_marker (rest : jsstring) : Prop :=
  rest = [] \/ exists r, rest = 81%N :: r.

(** *** The component *)

Record State := {
  topic : jsstring;
  difficulty : Difficulty;
  numQuestions : nat;
  isGenerating : bool;
  questions : list QuizQuestion;
  showAnswers : list (nat * bool);
  error : option jsstring
}.

Definition initial : State :=
  {| topic := []; difficulty := medium; numQuestions := 5;
     isGenerating := false; questions := []; showAnswers := [];
     error := None |}.

Definition setIsGenerating (b : bool) (s : State) : State :=
  {| topic := topic s; difficulty := difficulty s;
     numQuestions := numQuestions s; isGenerating := b;
     questions := questions s; showAnswers := showAnswers s;
     error := error s |}.

Definition setQuestions (qs : list QuizQuestion) (s : State) : State :=
  {| topic := topic s; difficulty := difficulty s;
     numQuestions := numQuestions s; isGenerating := isGenerating s;
     questions := qs; showAnswers := showAnswers s; error := error s |}.

Definition setShowAnswers (m : list (nat * bool)) (s : State) : State :=
  {| topic := topic s; difficulty := difficulty s;
     numQuestions := numQuestions s; isGenerating := isGenerating s;
     questions := questions s; showAnswers := m; error := error s |}.

Definition setError (e : option jsstring) (s : State) : State :=
  {| topic := topic s; difficulty := difficulty s;
     numQuestions := numQuestions s; isGenerating := isGenerating s;
     questions := questions s; showAnswers := showAnswers s; error := e |}.

(** The options object passed to [TextGeneration.generateStream]. *)
Record GenOptions := {
  maxTokens : nat;
  temperature : float;
  systemPrompt : jsstring
}.

Inductive Call :=
| GenerateStream (prompt : jsstring) (opts : GenOptions)
| StreamNext.

(** What the stream of tokens does when it is iterated: it ends after
    finitely many tokens, or it throws after some. *)
Inductive stream :=
| StreamEnds (tokens : list jsstring)
| StreamThrows (tokens : list jsstring) (err : thrown).

(** The template literal of [handleGenerate]. *)
Definition format_instructions : jsstring :=
  str "Format each question like this:" ++ nl ::
  str "Q: [question here]" ++ nl ::
  str "A: [answer here]" ++ nl ::
  str "E: [explanation here]".

Definition build_prompt (numQuestions : nat) (difficulty : Difficulty)
    (topic : jsstring) : jsstring :=
  str "Generate exactly " ++ of_nat numQuestions ++ str " "
  ++ difficulty_str difficulty ++ str " level quiz questions about "
  ++ dquote :: topic ++ dquote :: str ". " ++ nl :: nl ::
  str "For each question, provide:" ++ nl ::
  str "1. The question" ++ nl ::
  str "2. A clear, concise answer" ++ nl ::
  str "3. A brief explanation (1-2 sentences)" ++ nl :: nl ::
  format_instructions ++ nl :: nl ::
  str "Keep questions educational and test understanding of key concepts.".

Definition gen_options : GenOptions :=
  {| maxTokens := 1024;
     temperature := 0x1.999999999999ap-1%float;   (* 0.8 *)
     systemPrompt := str "You are a helpful educational tutor who creates effective quiz questions to test student understanding. Focus on clarity and educational value." |}.

(** [for await (const token of stream) fullResponse += token] *)
Definition read_stream (s : stream) : M State Call jsstring :=
  match s with
  | StreamEnds tokens =>
      await StreamNext (Returned (concat tokens))
  | StreamThrows _ err =>
      await StreamNext (Threw err)
  end.

(** [handleGenerate]; [generated] is what [generateStream] answers. *)
Definition handleGenerate (generated : outcome stream) : M State Call unit :=
  s <- get ;;
  if negb (truthy (trim (topic s))) then
    modify (setError (Some (str "Please enter a topic to generate questions about")))
  else
    modify (setIsGenerating true) ;;
    modify (setError None) ;;
    modify (setQuestions []) ;;
    modify (setShowAnswers []) ;;
    try_finally
      (try_catch
         (let prompt := build_prompt (numQuestions s) (difficulty s) (topic s) in
          st <- await (GenerateStream prompt gen_options) generated ;;
          fullResponse <- read_stream st ;;
          let parsedQuestions := parseQuizResponse fullResponse in
          if length parsedQuestions =? 0 then
            modify (setError (Some (str "Failed to parse quiz questions. Please try again.")))
          else
            modify (setQuestions parsedQuestions))
         (fun err =>
            console_error (str "Quiz generation failed:") err ;;
            modify (setError (Some (message_or err (str "Failed to generate quiz"))))))
      (modify (setIsGenerating false)).

(** *** The answers shown *)

(** [showAnswers[index]] read as a condition: a key that is absent gives
    [undefined], which is falsy.  The first pair with the key is the one
    the object holds. *)
Fixpoint shown (m : list (nat * bool)) (index : nat) : bool :=
  match m with
  | [] => false
  | (k, v) :: m' => if k =? index then v else shown m' index
  end.

(** [toggleAnswer]: the updater copies the object and sets [index] to the
    negation of what it held. *)
Definition toggleAnswer (index : nat) : M State Call unit :=
  modify (fun s =>
    setShowAnswers ((index, negb (shown (showAnswers s) index))
                    :: showAnswers s) s).

Definition setTopic (t : jsstring) (s : State) : State :=
  {| topic := t; difficulty := difficulty s;
     numQuestions := numQuestions s; isGenerating := isGenerating s;
     questions := questions s; showAnswers := showAnswers s;
     error := error s |}.

Definition loadSampleTopic (sample : jsstring) : M State Call unit :=
  modify (setTopic sample).

(** No match of [/Q\d*:/] starts in [cur] when [cur] is followed by [s]. *)
Definition clean (cur s : jsstring) : Prop :=
  forall pre suf, cur = pre ++ suf -> suf <> [] ->
                  match_marker (suf ++ s) = None.

End QuizTab.

(* ===================================================================== *)
(** ** Numbers *)
(* ===================================================================== *)

(** A JavaScript number is a binary64 float.  The length of an array is a
    non-negative integer below 2^53, which a float holds exactly. *)
Definition number_of_length (n : nat) : float :=
  PrimFloat.of_uint63 (Uint63.of_Z (Z.of_nat n)).

(* ===================================================================== *)
(** ** TextToAudioTab *)
(* ===================================================================== *)

Module TextToAudioTab.

Record AudioStats := {
  duration : float;
  generationTime : float;
  sampleRate : float
}.

Record State := {
  text : jsstring;
  isGenerating : bool;
  error : option jsstring;
  audioStats : option AudioStats;
  audioContextRef : bool;      (* whether an AudioContext was created *)
  audioSourceRef : bool        (* whether a source node is held *)
}.

Definition initial : State :=
  {| text := []; isGenerating := false; error := None; audioStats := None;
     audioContextRef := false; audioSourceRef := false |}.

Definition setIsGenerating (b : bool) (s : State) : State :=
  {| text := text s; isGenerating := b; error := error s;
     audioStats := audioStats s; audioContextRef := audioContextRef s;
     audioSourceRef := audioSourceRef s |}.

Definition setError (e : option jsstring) (s : State) : State :=
  {| text := text s; isGenerating := isGenerating s; error := e;
     audioStats := audioStats s; audioContextRef := audioContextRef s;
     audioSourceRef := audioSourceRef s |}.

Definition setAudioStats (a : option AudioStats) (s : State) : State :=
  {| text := text s; isGenerating := isGenerating s; error := error s;
     audioStats := a; audioContextRef := audioContextRef s;
     audioSourceRef := audioSourceRef s |}.

Definition setAudioContextRef (b : bool) (s : State) : State :=
  {| text := text s; isGenerating := isGenerating s; error := error s;
     audioStats := audioStats s; audioContextRef := b;
     audioSourceRef := audioSourceRef s |}.

Definition setAudioSourceRef (b : bool) (s : State) : State :=
  {| text := text s; isGenerating := isGenerating s; error := error s;
     audioStats := audioStats s; audioContextRef := audioContextRef s;
     audioSourceRef := b |}.

(** What [TTS.synthesize] resolves to. *)
Record TtsResult := {
  audioData : list float;
  resultSampleRate : float
}.

Inductive Call :=
| PerformanceNow
| TtsSynthesize (text : jsstring) (speed : float)
| SourceStop
| NewAudioContext
| ContextResume
| CreateBuffer (channels length : nat) (sampleRate : float)
| CopyToChannel (channel : nat) (data : list float)
| CreateBufferSource
| SourceConnect
| SourceStart.

(** What the browser and the SDK answer during one [handleGenerate]. *)
Record Answers := {
  startTime : float;
  synthesized : outcome TtsResult;
  endTime : float;
  suspended : bool;
  resumed : outcome unit;
  bufferCreated : outcome unit;
  sourceStarted : outcome unit
}.

Definition handleGenerate (env : Answers) : M State Call unit :=
  s <- get ;;
  if negb (truthy (trim (text s))) then
    modify (setError (Some (str "Please enter some text to convert to audio")))
  else
    modify (setIsGenerating true) ;;
    modify (setError None) ;;
    modify (setAudioStats None) ;;
    when (audioSourceRef s)
      (invoke SourceStop ;; modify (setAudioSourceRef false)) ;;
    try_finally
      (try_catch
         (startTime <- await PerformanceNow (Returned (startTime env)) ;;
          result <- await (TtsSynthesize (text s) 1%float) (synthesized env) ;;
          now <- await PerformanceNow (Returned (endTime env)) ;;
          let generationTime := (now - startTime)%float in
          let duration :=
            (number_of_length (length (audioData result))
             / resultSampleRate result)%float in
          modify (setAudioStats (Some
            {| duration := duration;
               generationTime := (generationTime / 1000)%float;
               sampleRate := resultSampleRate result |})) ;;
          s1 <- get ;;
          when (negb (audioContextRef s1))
            (invoke NewAudioContext ;; modify (setAudioContextRef true)) ;;
          (if suspended env then await ContextResume (resumed env)
           else ret tt) ;;
          await (CreateBuffer 1 (length (audioData result))
                   (resultSampleRate result)) (bufferCreated env) ;;
          invoke (CopyToChannel 0 (audioData result)) ;;
          invoke CreateBufferSource ;;
          invoke SourceConnect ;;
          modify (setAudioSourceRef true) ;;
          await SourceStart (sourceStarted env))
         (fun err =>
            console_error (str "TTS generation failed:") err ;;
            modify (setError (Some (message_or err (str "Failed to generate audio"))))))
      (modify (setIsGenerating false)).

(** [source.onended] *)
Definition onended : M State Call unit :=
  modify (setAudioSourceRef false).

Definition handleStop : M State Call unit :=
  s <- get ;;
  when (audioSourceRef s)
    (invoke SourceStop ;; modify (setAudioSourceRef false)).

(** *** What can happen to the mounted component *)

Definition setText (t : jsstring) (s : State) : State :=
  {| text := t; isGenerating := isGenerating s; error := error s;
     audioStats := audioStats s; audioContextRef := audioContextRef s;
     audioSourceRef := audioSourceRef s |}.

Definition loadSampleText (sample : jsstring) : M State Call unit :=
  modify (setText sample).

(** What fails first once the synthesis has succeeded: [resume] when the
    context is suspended, then [createBuffer], then [start]. *)
Definition playback_failure (env : Answers) : option thrown :=
  match (if suspended env then resumed env else Returned tt) with
  | Threw e => Some e
  | Returned _ =>
      match bufferCreated env with
      | Threw e => Some e
      | Returned _ =>
          match sourceStarted env with
          | Threw e => Some e
          | Returned _ => None
          end
      end
  end.

(** What the [try] block of [handleGenerate] throws, if anything. *)
Definition failure (env : Answers) : option thrown :=
  match synthesized env with
  | Threw e => Some e
  | Returned _ => playback_failure env
  end.

Inductive event :=
| Typed (t : jsstring)
| SampleClicked (sample : jsstring)
| GenerateClicked (env : Answers)
| StopClicked
| SourceEnded.

Definition handle (e : event) : M State Call unit :=
  match e with
  | Typed t => modify (setText t)
  | SampleClicked sample => loadSampleText sample
  | GenerateClicked env => handleGenerate env
  | StopClicked => handleStop
  | SourceEnded => onended
  end.

Definition step (w : world State Call) (e : event) : world State Call :=
  snd (handle e w).

Definition run (w : world State Call) (es : list event) : world State Call :=
  fold_left step es w.

(** How many times [new AudioContext()] was evaluated. *)
Definition contexts_created (w : world State Call) : nat :=
  length (filter (fun c => match c with NewAudioContext => true | _ => false end)
            (calls w)).

(** One context for each time the reference was found empty, and a source
    only once there is a context. *)
Definition context_kept (w : world State Call) : Prop :=
  contexts_created w = (if audioContextRef (state w) then 1 else 0)
  /\ (audioSourceRef (state w) = true -> audioContextRef (state w) = true).

End TextToAudioTab.

(* ===================================================================== *)
(** ** App *)
(* ===================================================================== *)

Module App.

Inductive Tab := chat | vision | voice | text_to_audio | voice_qa | quiz.

Record State := {
  sdkReady : bool;
  sdkError : option jsstring;
  activeTab : Tab
}.

Definition initial : State :=
  {| sdkReady := false; sdkError := None; activeTab := quiz |}.

Definition setSdkReady (b : bool) (s : State) : State :=
  {| sdkReady := b; sdkError := sdkError s; activeTab := activeTab s |}.

Definition setSdkError (e : option jsstring) (s : State) : State :=
  {| sdkReady := sdkReady s; sdkError := e; activeTab := activeTab s |}.

Inductive Call := InitSDK.

(** The effect run on mount:
    [initSDK().then(() => setSdkReady(true)).catch(err => ...)]. *)
Definition on_mount (initialised : outcome unit) : M State Call unit :=
  try_catch
    (await InitSDK initialised ;; modify (setSdkReady true))
    (fun err => modify (setSdkError (Some (message_or_String err)))).

Definition setActiveTab (t : Tab) (s : State) : State :=
  {| sdkReady := sdkReady s; sdkError := sdkError s; activeTab := t |}.

(** What [App] returns: the error screen, the loading screen, or the
    header, the tab bar and the component of the active tab. *)
Inductive View :=
| ErrorView (message : jsstring)
| LoadingView
| TabView (active : Tab).

(** The two early returns of [App]: [if (sdkError)] holds for a string
    that is not empty. *)
Definition render (s : State) : View :=
  match sdkError s with
  | Some (c :: m) => ErrorView (c :: m)
  | _ => if negb (sdkReady s) then LoadingView else TabView (activeTab s)
  end.

End App.

(* ===================================================================== *)
(** ** VoiceQATab *)
(* ===================================================================== *)

Module VoiceQATab.

Inductive PipelineState := idle | listening | transcribing | thinking | speaking.

Inductive Role := user | assistant.

Record Entry := { role : Role; entry_text : jsstring }.

Record State := {
  pipelineState : PipelineState;
  transcript : jsstring;
  response : jsstring;
  error : option jsstring;
  conversationHistory : list Entry;
  audioCaptureRef : bool;     (* whether an AudioCapture is held *)
  audioPlaybackRef : bool;    (* whether an AudioPlayback is held *)
  vadUnsubRef : bool;         (* whether an unsubscribe function is held *)
  pipelineRef : bool;         (* whether a VoicePipeline is held *)
  allModelsReady : bool       (* the four loaders are all 'ready' *)
}.

Definition initial : State :=
  {| pipelineState := idle; transcript := []; response := [];
     error := None; conversationHistory := [];
     audioCaptureRef := false; audioPlaybackRef := false;
     vadUnsubRef := false; pipelineRef := false;
     allModelsReady := false |}.

Definition setPipelineState (p : PipelineState) (s : State) : State :=
  {| pipelineState := p; transcript := transcript s;
     response := response s; error := error s;
     conversationHistory := conversationHistory s;
     audioCaptureRef := audioCaptureRef s;
     audioPlaybackRef := audioPlaybackRef s;
     vadUnsubRef := vadUnsubRef s; pipelineRef := pipelineRef s;
     allModelsReady := allModelsReady s |}.

Definition setTranscript (t : jsstring) (s : State) : State :=
  {| pipelineState := pipelineState s; transcript := t;
     response := response s; error := error s;
     conversationHistory := conversationHistory s;
     audioCaptureRef := audioCaptureRef s;
     audioPlaybackRef := audioPlaybackRef s;
     vadUnsubRef := vadUnsubRef s; pipelineRef := pipelineRef s;
     allModelsReady := allModelsReady s |}.

Definition setResponse (r : jsstring) (s : State) : State :=
  {| pipelineState := pipelineState s; transcript := transcript s;
     response := r; error := error s;
     conversationHistory := conversationHistory s;
     audioCaptureRef := audioCaptureRef s;
     audioPlaybackRef := audioPlaybackRef s;
     vadUnsubRef := vadUnsubRef s; pipelineRef := pipelineRef s;
     allModelsReady := allModelsReady s |}.

Definition setError (e : option jsstring) (s : State) : State :=
  {| pipelineState := pipelineState s; transcript := transcript s;
     response := response s; error := e;
     conversationHistory := conversationHistory s;
     audioCaptureRef := audioCaptureRef s;
     audioPlaybackRef := audioPlaybackRef s;
     vadUnsubRef := vadUnsubRef s; pipelineRef := pipelineRef s;
     allModelsReady := allModelsReady s |}.

(** [setConversationHistory(f)] with an updater function. *)
Definition setConversationHistory (f : list Entry -> list Entry)
    (s : State) : State :=
  {| pipelineState := pipelineState s; transcript := transcript s;
     response := response s; error := error s;
     conversationHistory := f (conversationHistory s);
     audioCaptureRef := audioCaptureRef s;
     audioPlaybackRef := audioPlaybackRef s;
     vadUnsubRef := vadUnsubRef s; pipelineRef := pipelineRef s;
     allModelsReady := allModelsReady s |}.

Definition setAudioCaptureRef (b : bool) (s : State) : State :=
  {| pipelineState := pipelineState s; transcript := transcript s;
     response := response s; error := error s;
     conversationHistory := conversationHistory s;
     audioCaptureRef := b;
     audioPlaybackRef := audioPlaybackRef s;
     vadUnsubRef := vadUnsubRef s; pipelineRef := pipelineRef s;
     allModelsReady := allModelsReady s |}.

Definition setAudioPlaybackRef (b : bool) (s : State) : State :=
  {| pipelineState := pipelineState s; transcript := transcript s;
     response := response s; error := error s;
     conversationHistory := conversationHistory s;
     audioCaptureRef := audioCaptureRef s;
     audioPlaybackRef := b;
     vadUnsubRef := vadUnsubRef s; pipelineRef := pipelineRef s;
     allModelsReady := allModelsReady s |}.

Definition setVadUnsubRef (b : bool) (s : State) : State :=
  {| pipelineState := pipelineState s; transcript := transcript s;
     response := response s; error := error s;
     conversationHistory := conversationHistory s;
     audioCaptureRef := audioCaptureRef s;
     audioPlaybackRef := audioPlaybackRef s;
     vadUnsubRef := b; pipelineRef := pipelineRef s;
     allModelsReady := allModelsReady s |}.

Definition setPipelineRef (b : bool) (s : State) : State :=
  {| pipelineState := pipelineState s; transcript := transcript s;
     response := response s; error := error s;
     conversationHistory := conversationHistory s;
     audioCaptureRef := audioCaptureRef s;
     audioPlaybackRef := audioPlaybackRef s;
     vadUnsubRef := vadUnsubRef s; pipelineRef := b;
     allModelsReady := allModelsReady s |}.

Definition setAllModelsReady (b : bool) (s : State) : State :=
  {| pipelineState := pipelineState s; transcript := transcript s;
     response := response s; error := error s;
     conversationHistory := conversationHistory s;
     audioCaptureRef := audioCaptureRef s;
     audioPlaybackRef := audioPlaybackRef s;
     vadUnsubRef := vadUnsubRef s; pipelineRef := pipelineRef s;
     allModelsReady := b |}.

(** The options object passed to [VoicePipeline.processTurn]. *)
Record TurnOptions := {
  maxTokens : nat;
  temperature : float;
  systemPrompt : jsstring
}.

Definition turn_options : TurnOptions :=
  {| maxTokens := 150;
     temperature := 0x1.6666666666666p-1%float;   (* 0.7 *)
     systemPrompt := str "You are a helpful study assistant. Answer questions clearly and concisely. Focus on being educational and accurate. Keep responses brief and to the point." |}.

(** [SpeechActivity] of the SDK; only [Ended] is named by this code. *)
Inductive SpeechActivity := Started | Ended | Ongoing.

Definition activity_eqb (a b : SpeechActivity) : bool :=
  match a, b with
  | Started, Started | Ended, Ended | Ongoing, Ongoing => true
  | _, _ => false
  end.

(** What [VAD.popSpeechSegment] returns when it is not null. *)
Record Segment := { samples : list float }.

(** The capture rate given to [AudioCapture]. *)
Definition capture_rate : N := 16000%N.

Inductive Call :=
| NewVoicePipeline
| NewAudioPlayback
| EnsureModels
| NewAudioCapture (sampleRate : N)
| VadReset
| VadOnSpeechActivity
| MicStart
| MicStop
| VadUnsubscribe
| VadPopSpeechSegment
| PipelineProcessTurn (audioData : list float) (opts : TurnOptions)
| PlaybackPlay (audio : list float) (sampleRate : float)
| ConsoleLog (state : jsstring).

Definition pipeline_state_eqb (a b : PipelineState) : bool :=
  match a, b with
  | idle, idle | listening, listening | transcribing, transcribing
  | thinking, thinking | speaking, speaking => true
  | _, _ => false
  end.

(** The body of the effect. *)
Definition effect_body : M State Call unit :=
  s <- get ;;
  when (allModelsReady s && negb (pipelineRef s))
    (invoke NewVoicePipeline ;; modify (setPipelineRef true) ;;
     invoke NewAudioPlayback ;; modify (setAudioPlaybackRef true)).

(** The cleanup the effect returns. *)
Definition effect_cleanup : M State Call unit :=
  s <- get ;;
  when (audioCaptureRef s) (invoke MicStop) ;;
  when (vadUnsubRef s) (invoke VadUnsubscribe).

Definition handleLoadModels (ensured : outcome unit) : M State Call unit :=
  modify (setError None) ;;
  try_catch
    (await EnsureModels ensured)
    (fun err =>
       modify (setError (Some (message_or err (str "Failed to load models"))))).

(** The catch clause of [processTurn]. *)
Definition processTurn_catch (err : thrown) : M State Call unit :=
  console_error (str "Pipeline failed:") err ;;
  modify (setError (Some (message_or err (str "Failed to process voice input")))) ;;
  modify (setPipelineState idle).

(** [processTurn]; [settled] is how the promise of the pipeline settles.
    The callbacks given to the pipeline are the handlers below. *)
Definition processTurn (audioData : list float) (settled : outcome unit)
  : M State Call unit :=
  s <- get ;;
  if negb (pipelineRef s) then ret tt
  else
    try_catch
      (await (PipelineProcessTurn audioData turn_options) settled)
      processTurn_catch.

(** [processTurn] up to its [await]: what a caller that does not await
    it runs before it goes on. *)
Definition processTurn_called (audioData : list float) : M State Call unit :=
  s <- get ;;
  if negb (pipelineRef s) then ret tt
  else invoke (PipelineProcessTurn audioData turn_options).

(** The callback given to [VAD.onSpeechActivity]; [popped] is what
    [VAD.popSpeechSegment] returns if it is called. *)
Definition onSpeechActivity (activity : SpeechActivity)
    (popped : option Segment) : M State Call unit :=
  if activity_eqb activity Ended then
    segment <- await VadPopSpeechSegment (Returned popped) ;;
    match segment with
    | Some seg =>
        if 1600 <? length (samples seg) then
          modify (setPipelineState transcribing) ;;
          processTurn_called (samples seg)
        else ret tt
    | None => ret tt
    end
  else ret tt.

(** [startListening]; [started] is how [mic.start] settles. *)
Definition startListening (started : outcome unit) : M State Call unit :=
  s <- get ;;
  if negb (allModelsReady s)
     || negb (pipeline_state_eqb (pipelineState s) idle) then ret tt
  else
    modify (setError None) ;;
    modify (setPipelineState listening) ;;
    modify (setTranscript []) ;;
    modify (setResponse []) ;;
    try_catch
      (invoke (NewAudioCapture capture_rate) ;;
       modify (setAudioCaptureRef true) ;;
       invoke VadReset ;;
       invoke VadOnSpeechActivity ;;
       modify (setVadUnsubRef true) ;;
       await MicStart started)
      (fun err =>
         console_error (str "Failed to start listening:") err ;;
         modify (setError (Some (message_or err (str "Failed to start listening")))) ;;
         modify (setPipelineState idle)).

Definition stopListening : M State Call unit :=
  s <- get ;;
  when (audioCaptureRef s)
    (invoke MicStop ;; modify (setAudioCaptureRef false)) ;;
  when (vadUnsubRef s)
    (invoke VadUnsubscribe ;; modify (setVadUnsubRef false)) ;;
  invoke VadReset ;;
  modify (setPipelineState idle).

Definition onTranscription (text : jsstring) : M State Call unit :=
  modify (setTranscript text) ;;
  modify (setPipelineState thinking).

Definition onResponseToken (token accumulated : jsstring)
  : M State Call unit :=
  modify (setResponse accumulated).

(** What reading a [const] throws before its declaration has been
    evaluated. *)
Definition not_initialized : thrown :=
  ErrorObject (str "Cannot access 'result' before initialization").

(** [result.transcription || transcript] in the updater of
    [onResponseComplete].  [result] is the [const] that the [await] of
    [processTurn] binds once the turn has settled: [None] while the turn
    is under way, when reading it throws, [Some] of its transcription
    afterwards.  [transcript] is the one of the render that made the
    [processTurn] at hand. *)
Definition user_text (result : option jsstring) (transcript : jsstring)
  : outcome jsstring :=
  match result with
  | None => Threw not_initialized
  | Some transcription =>
      Returned (if truthy transcription then transcription else transcript)
  end.

(** [result] and [transcript] are what the updater finds when React runs
    it, in the render that follows the callback. *)
Definition onResponseComplete (text : jsstring) (result : option jsstring)
    (transcript : jsstring) : M State Call unit :=
  rendered
    (modify (setPipelineState speaking) ;;
     u <- evaluate (user_text result transcript) ;;
     modify (setConversationHistory (fun prev =>
       prev ++ [ {| role := user; entry_text := u |};
                 {| role := assistant; entry_text := text |} ]))).

(** [played] is how [audioPlaybackRef.current.play] settles. *)
Definition onSynthesisComplete (audio : list float) (sampleRate : float)
    (played : outcome unit) : M State Call unit :=
  s <- get ;;
  (if audioPlaybackRef s then await (PlaybackPlay audio sampleRate) played
   else ret tt) ;;
  modify (setPipelineState idle).

Definition onStateChange (state : jsstring) : M State Call unit :=
  invoke (ConsoleLog state).

Definition clearHistory : M State Call unit :=
  modify (setConversationHistory (fun _ => [])) ;;
  modify (setTranscript []) ;;
  modify (setResponse []).

(** The main button: disabled unless all models are ready, its handler
    is [startListening] when idle and [stopListening] otherwise. *)
Definition main_button (started : outcome unit) : M State Call unit :=
  s <- get ;;
  if negb (allModelsReady s) then ret tt
  else if pipeline_state_eqb (pipelineState s) idle
       then startListening started
       else stopListening.

(** *** What can happen to the mounted component *)

Inductive event :=
| ModelsReady
| LoadModelsClicked (ensured : outcome unit)
| MainButtonClicked (started : outcome unit)
| ClearClicked
| VadActivity (activity : SpeechActivity) (popped : option Segment)
| Transcription (text : jsstring)
| ResponseToken (token accumulated : jsstring)
| ResponseComplete (text : jsstring) (result : option jsstring)
    (transcript_seen : jsstring)
| SynthesisComplete (audio : list float) (sampleRate : float)
    (played : outcome unit)
| StateChange (state : jsstring)
| TurnResolved
| TurnRejected (err : thrown).

(** The loaders becoming ready renders the component again, with the
    cleanup of the previous effect and the effect run anew. *)
Definition handle (e : event) : M State Call unit :=
  match e with
  | ModelsReady =>
      effect_cleanup ;; modify (setAllModelsReady true) ;; effect_body
  | LoadModelsClicked ensured => handleLoadModels ensured
  | MainButtonClicked started => main_button started
  | ClearClicked => clearHistory
  | VadActivity activity popped => onSpeechActivity activity popped
  | Transcription text => onTranscription text
  | ResponseToken token accumulated => onResponseToken token accumulated
  | ResponseComplete text result transcript_seen =>
      onResponseComplete text result transcript_seen
  | SynthesisComplete audio sampleRate played =>
      onSynthesisComplete audio sampleRate played
  | StateChange state => onStateChange state
  | TurnResolved => ret tt
  | TurnRejected err => processTurn_catch err
  end.

(** One event: the handler runs to its end, whatever it throws goes to
    its caller and is lost to the component. *)
Definition step (w : world State Call) (e : event) : world State Call :=
  snd (handle e w).

Definition run (w : world State Call) (es : list event) : world State Call :=
  fold_left step es w.

(** The values of [pipelineState] after each event, and with the one
    at the start. *)
Fixpoint states_after (w : world State Call) (es : list event)
  : list PipelineState :=
  match es with
  | [] => []
  | e :: es' => pipelineState (state (step w e)) :: states_after (step w e) es'
  end.

Definition trace (w : world State Call) (es : list event)
  : list PipelineState :=
  pipelineState (state w) :: states_after w es.

(** The events of a turn up to the end of the response, in the order the
    pipeline produces them: the button, the end of speech, the
    transcription, the tokens of the response. *)
Definition turn_to_response (seg : Segment) (transcription : jsstring)
    (tokens : list (jsstring * jsstring)) : list event :=
  [MainButtonClicked (Returned tt); VadActivity Ended (Some seg);
   Transcription transcription]
  ++ map (fun ta => ResponseToken (fst ta) (snd ta)) tokens.

(** What an event adds to the conversation history. *)
Definition next_history (h : list Entry) (e : event) : list Entry :=
  match e with
  | ResponseComplete text result transcript_seen =>
      match user_text result transcript_seen with
      | Returned u =>
          h ++ [ {| role := user; entry_text := u |};
                 {| role := assistant; entry_text := text |} ]
      | Threw _ => h
      end
  | ClearClicked => []
  | _ => h
  end.

(** A speech segment long enough to start a turn. *)
Definition long_enough (activity : SpeechActivity) (popped : option Segment)
  : bool :=
  activity_eqb activity Ended
  && match popped with
     | Some seg => 1600 <? length (samples seg)
     | None => false
     end.

(** *** Which events the SDK and the user can produce

    The callback of the VAD is called while the subscription made by
    [startListening] is held; the callbacks of a turn are called, and its
    promise settles, while a [processTurn] of the pipeline is under way,
    so that the updater of [onResponseComplete] finds [result] not bound
    yet; the buttons are there when they are rendered and enabled.  What
    React does with the component after a render that threw is not
    modelled: no event is taken to follow it. *)

Definition turns_called (w : world State Call) : nat :=
  length (filter (fun c => match c with
                           | PipelineProcessTurn _ _ => true
                           | _ => false
                           end) (calls w)).

Definition can_happen (settled : nat) (w : world State Call) (e : event)
  : bool :=
  let s := state w in
  match e with
  | ModelsReady => negb (allModelsReady s)
  | LoadModelsClicked _ => negb (allModelsReady s)
  | MainButtonClicked _ => allModelsReady s
  | ClearClicked => 0 <? length (conversationHistory s)
  | VadActivity _ _ => vadUnsubRef s
  | ResponseComplete _ result _ =>
      match result with
      | None => settled <? turns_called w
      | Some _ => false
      end
  | Transcription _ | ResponseToken _ _
  | SynthesisComplete _ _ _ | StateChange _ | TurnResolved
  | TurnRejected _ => settled <? turns_called w
  end.

(** The events whose render throws. *)
Definition render_throws (e : event) : bool :=
  match e with
  | ResponseComplete _ None _ => true
  | _ => false
  end.

Definition settles (e : event) : nat :=
  match e with
  | TurnResolved | TurnRejected _ => 1
  | _ => 0
  end.

Fixpoint feasible_from (settled : nat) (w : world State Call)
    (es : list event) : bool :=
  match es with
  | [] => true
  | e :: es' =>
      can_happen settled w e
      && (if render_throws e then match es' with [] => true | _ => false end
          else feasible_from (settled + settles e) (step w e) es')
  end.

Definition feasible (es : list event) : bool :=
  feasible_from 0 (start Call initial) es.

(** *** The order of a turn, as the specification gives it *)

(** A change of [pipelineState] that follows the order of a turn, or
    goes back to idle. *)
Definition follows_order (p p' : PipelineState) : bool :=
  match p, p' with
  | idle, listening
  | listening, transcribing
  | transcribing, thinking
  | thinking, speaking
  | speaking, idle => true
  | _, idle => true
  | _, _ => pipeline_state_eqb p p'
  end.

Fixpoint in_order (states : list PipelineState) : bool :=
  match states with
  | p :: (p' :: _) as rest => follows_order p p' && in_order rest
  | _ => true
  end.

(** What each event does to [pipelineState]: the value it leaves.  The
    end of the response is left out of the table. *)
Definition next_state (s : State) (e : event) : option PipelineState :=
  match e with
  | MainButtonClicked started =>
      if negb (allModelsReady s) then Some (pipelineState s)
      else
        match pipelineState s, started with
        | idle, Returned _ => Some listening
        | _, _ => Some idle
        end
  | VadActivity activity popped =>
      match popped with
      | Some seg =>
          if activity_eqb activity Ended && (1600 <? length (samples seg))
          then Some transcribing else Some (pipelineState s)
      | None => Some (pipelineState s)
      end
  | Transcription _ => Some thinking
  | ResponseComplete _ _ _ => None
  | SynthesisComplete _ _ played =>
      match played with
      | Threw _ =>
          if audioPlaybackRef s then Some (pipelineState s) else Some idle
      | Returned _ => Some idle
      end
  | TurnRejected _ => Some idle
  | ModelsReady | LoadModelsClicked _ | ClearClicked | ResponseToken _ _
  | StateChange _ | TurnResolved => Some (pipelineState s)
  end.

(** Once the models are ready the pipeline exists, and a subscription
    to the VAD is only made with the models ready. *)
Definition pipeline_there (s : State) : Prop :=
  (allModelsReady s = true -> pipelineRef s = true)
  /\ (vadUnsubRef s = true -> allModelsReady s = true).

(** *** The shape of the conversation history *)

Definition role_eqb (a b : Role) : bool :=
  match a, b with
  | user, user | assistant, assistant => true
  | _, _ => false
  end.

(** Pairs of a user entry and an assistant entry: even length, a user
    entry at every even index, an assistant entry at every odd one. *)
Fixpoint alternates (h : list Entry) : bool :=
  match h with
  | [] => true
  | u :: a :: h' =>
      role_eqb (role u) user && role_eqb (role a) assistant && alternates h'
  | _ => false
  end.

(** *** What the component asks of the SDK *)

(** The calls that capture audio or run a turn. *)
Definition uses_models (c : Call) : bool :=
  match c with
  | NewAudioCapture _ | MicStart | VadOnSpeechActivity
  | PipelineProcessTurn _ _ => true
  | _ => false
  end.

(** How many times [new VoicePipeline()] was evaluated. *)
Definition pipelines_created (w : world State Call) : nat :=
  length (filter (fun c => match c with NewVoicePipeline => true | _ => false end)
            (calls w)).

(** Before the models are ready nothing is held and nothing was asked of
    them. *)
Definition waiting (w : world State Call) : Prop :=
  allModelsReady (state w) = false ->
  pipelineRef (state w) = false
  /\ audioCaptureRef (state w) = false
  /\ vadUnsubRef (state w) = false
  /\ filter uses_models (calls w) = [].

(** The pipeline and the playback are made together and once, and a turn
    is only started with a pipeline. *)
Definition pipeline_kept (w : world State Call) : Prop :=
  pipelines_created w = (if pipelineRef (state w) then 1 else 0)
  /\ audioPlaybackRef (state w) = pipelineRef (state w)
  /\ (0 < turns_called w -> pipelineRef (state w) = true).

End VoiceQATab.

(* ===================================================================== *)
(** ** The quiz format the prompt asks for *)
(* ===================================================================== *)

Module QuizFormat.

Import QuizTab.

(** A block of a completion in the format: the marker, the question on
    the rest of its line, the answer line and the lines that continue
    it, the explanation line and the lines that continue it, then the
    blank lines up to the next marker.  With no blank line after it the
    next marker follows on the same line; one empty line after it is a
    line feed at the end of the block. *)
Record Block := {
  number : jsstring;
  question_line : jsstring;
  answer_text : jsstring;
  answer_more : list jsstring;
  explanation_text : jsstring;
  explanation_more : list jsstring;
  blank_after : list jsstring
}.

Definition block_lines (b : Block) : list jsstring :=
  question_line b :: (A_ ++ answer_text b) :: answer_more b
  ++ (E_ ++ explanation_text b) :: explanation_more b ++ blank_after b.

Definition block_body (b : Block) : jsstring := join_nl (block_lines b).

Definition render_block (b : Block) : jsstring :=
  81%N :: number b ++ 58%N :: block_body b.

Definition render (bs : list Block) : jsstring :=
  concat (map render_block bs).

(** A text followed by its continuation lines, single spaces between. *)
Definition with_more (first : jsstring) (more : list jsstring) : jsstring :=
  fold_left (fun acc l => acc ++ space :: trim l) more first.

(** The item the specification gives for a block. *)
Definition item_of (b : Block) : QuizQuestion :=
  {| question := trim (question_line b);
     answer := with_more (trim (answer_text b)) (answer_more b);
     explanation := with_more (trim (explanation_text b))
                      (explanation_more b) |}.

Definition one_line (l : jsstring) : bool :=
  forallb (fun c => negb (char_eqb c nl)) l.

Definition blank (l : jsstring) : bool := forallb is_ws l.

(** The format as the specification words it. *)
Definition in_format (b : Block) : bool :=
  forallb is_digit (number b)
  && one_line (question_line b)
  && one_line (answer_text b)
  && forallb one_line (answer_more b)
  && one_line (explanation_text b)
  && forallb one_line (explanation_more b)
  && forallb (fun l => one_line l && blank l) (blank_after b).

(** No match of [/Q\d*:/] starts anywhere in [s]. *)
Fixpoint marker_free (s : jsstring) : bool :=
  match s with
  | [] => true
  | _ :: s' =>
      match match_marker s with
      | Some _ => false
      | None => marker_free s'
      end
  end.

(** A line that is neither blank nor taken for an answer or an
    explanation line. *)
Definition plain_line (l : jsstring) : bool :=
  truthy (trim l)
  && negb (startsWith (trim l) A_)
  && negb (startsWith (trim l) E_).

(** What the parser needs beyond the format. *)
Definition parseable (b : Block) : bool :=
  in_format b
  && marker_free (block_body b)
  && plain_line (question_line b)
  && forallb plain_line (answer_more b)
  && forallb plain_line (explanation_more b)
  && truthy (with_more (trim (answer_text b)) (answer_more b)).



(** A line as [lines_of] gives them: no line feed in it and nothing left
    to trim. *)
Definition trimmed_line (l : jsstring) : Prop :=
  one_line l = true /\ trim l = l.

(** The label of the option chosen in the select of the question count. *)
Definition count_label (n : nat) : jsstring :=
  match n with
  | 3 => str "3"
  | 5 => str "5"
  | 7 => str "7"
  | 10 => str "10"
  | _ => []
  end.

(** The first sentence of the prompt, as the specification gives it,
    with the difficulty spelled as the option of the select spells it. *)
Definition first_sentence (n : nat) (d : Difficulty) (t : jsstring)
  : jsstring :=
  str "Generate exactly " ++ count_label n ++ str " "
  ++ match d with
     | easy => str "easy"
     | medium => str "medium"
     | hard => str "hard"
     end
  ++ str " level quiz questions about " ++ dquote :: t ++ dquote :: str ".".


End QuizFormat.

(* ===================================================================== *)
(** ** Sample inputs *)
(* ===================================================================== *)

Module Samples.

Import QuizFormat.

(** Two blocks as a model writes them, the second numbered and with
    lines that continue the answer and the explanation. *)
Definition two_blocks : list Block :=
  [ {| number := [];
       question_line := str " What does a chloroplast do?";
       answer_text := str " It turns light into sugar.";
       answer_more := [];
       explanation_text := str " Photosynthesis takes place there.";
       explanation_more := [];
       blank_after := [[]; []] |};
    {| number := str "2";
       question_line := str " Which gas do plants take in?  ";
       answer_text := str " Carbon dioxide,";
       answer_more := [str "  through the stomata."];
       explanation_text := str " It is the source of carbon";
       explanation_more := [str "for the sugar."; str "  Oxygen is released."];
       blank_after := [[]] |} ].

(** A block in the format whose question holds the text of a marker. *)
Definition faq_block : Block :=
  {| number := [];
     question_line := str " What does FAQ: stand for?";
     answer_text := str " Frequently asked questions";
     answer_more := [];
     explanation_text := str " It is an abbreviation.";
     explanation_more := [];
     blank_after := [[]] |}.

(** A speech segment of 1601 samples. *)
Definition long_segment : VoiceQATab.Segment :=
  {| VoiceQATab.samples := repeat 0%float 1601 |}.

(** A speech segment of 1600 samples. *)
Definition short_segment : VoiceQATab.Segment :=
  {| VoiceQATab.samples := repeat 0%float 1600 |}.

(** Listening stopped while the speech is being transcribed, and the
    transcription that the pipeline delivers afterwards. *)
Definition stop_then_transcription : list VoiceQATab.event :=
  [VoiceQATab.ModelsReady;
   VoiceQATab.MainButtonClicked (Returned tt);
   VoiceQATab.VadActivity VoiceQATab.Ended (Some long_segment);
   VoiceQATab.MainButtonClicked (Returned tt);
   VoiceQATab.Transcription (str "what is a cell")].

(** A turn up to the end of the response, which comes while the turn is
    under way. *)
Definition turn_with_response : list VoiceQATab.event :=
  [VoiceQATab.ModelsReady;
   VoiceQATab.MainButtonClicked (Returned tt);
   VoiceQATab.VadActivity VoiceQATab.Ended (Some long_segment);
   VoiceQATab.Transcription (str "what is a cell");
   VoiceQATab.ResponseComplete (str "A cell is the unit of life.") None []].

(** QuizTab with a topic typed in. *)
Definition quiz_with_topic : QuizTab.State :=
  {| QuizTab.topic := str "Photosynthesis";
     QuizTab.difficulty := QuizTab.medium;
     QuizTab.numQuestions := 5;
     QuizTab.isGenerating := false;
     QuizTab.questions := [];
     QuizTab.showAnswers := [];
     QuizTab.error := None |}.

(** TextToAudioTab with a text typed in. *)
Definition audio_with_text : TextToAudioTab.State :=
  {| TextToAudioTab.text := str "The cell is the unit of life.";
     TextToAudioTab.isGenerating := false;
     TextToAudioTab.error := None;
     TextToAudioTab.audioStats := None;
     TextToAudioTab.audioContextRef := false;
     TextToAudioTab.audioSourceRef := false |}.

Definition audio_answers : TextToAudioTab.Answers :=
  {| TextToAudioTab.startTime := 100%float;
     TextToAudioTab.synthesized :=
       Returned {| TextToAudioTab.audioData := repeat 0%float 4;
                   TextToAudioTab.resultSampleRate := 2%float |};
     TextToAudioTab.endTime := 350%float;
     TextToAudioTab.suspended := false;
     TextToAudioTab.resumed := Returned tt;
     TextToAudioTab.bufferCreated := Returned tt;
     TextToAudioTab.sourceStarted := Returned tt |}.

(** VoiceQATab idle after a turn and a failed start: a transcript, a
    response and an error are left on display. *)
Definition voice_with_leftovers : VoiceQATab.State :=
  {| VoiceQATab.pipelineState := VoiceQATab.idle;
     VoiceQATab.transcript := str "what is a cell";
     VoiceQATab.response := str "A cell is the unit of life.";
     VoiceQATab.error := Some (str "Permission denied");
     VoiceQATab.conversationHistory := [];
     VoiceQATab.audioCaptureRef := false;
     VoiceQATab.audioPlaybackRef := true;
     VoiceQATab.vadUnsubRef := false;
     VoiceQATab.pipelineRef := true;
     VoiceQATab.allModelsReady := true |}.

(** VoiceQATab once the models are ready. *)
Definition voice_ready : VoiceQATab.State :=
  state (VoiceQATab.run (start VoiceQATab.Call VoiceQATab.initial)
           [VoiceQATab.ModelsReady]).

End Samples.

(* ===================================================================== *)
(** * Properties *)
(* ===================================================================== *)

Unset Implicit Arguments.

(** ** The model on sample inputs *)

Section Examples.

Import QuizTab QuizFormat.

Example trim_example : trim (str "  A: yes  ") = str "A: yes".
Proof. reflexivity. Qed.

Example of_nat_example : of_nat 10 = str "10".
Proof. reflexivity. Qed.

Example split_marker_example :
  split_marker (str "Intro Q1: one Q: two Q12 three")
  = [str "Intro "; str " one "; str " two Q12 three"].
Proof. reflexivity. Qed.

Example split_marker_empty : split_marker [] = [[]].
Proof. reflexivity. Qed.

Example parseQuizResponse_empty : parseQuizResponse [] = [].
Proof. reflexivity. Qed.

Example parseQuizResponse_no_marker :
  parseQuizResponse (str "Sorry, I can not write a quiz.") = [].
Proof. vm_compute; reflexivity. Qed.

Example render_two_blocks :
  render Samples.two_blocks
  = str "Q: What does a chloroplast do?
A: It turns light into sugar.
E: Photosynthesis takes place there.

Q2: Which gas do plants take in?  
A: Carbon dioxide,
  through the stomata.
E: It is the source of carbon
for the sugar.
  Oxygen is released.
".
Proof. vm_compute; reflexivity. Qed.

Example parseQuizResponse_two_blocks :
  parseQuizResponse (render Samples.two_blocks)
  = [ {| question := str "What does a chloroplast do?";
         answer := str "It turns light into sugar.";
         explanation := str "Photosynthesis takes place there." |};
      {| question := str "Which gas do plants take in?";
         answer := str "Carbon dioxide, through the stomata.";
         explanation :=
           str "It is the source of carbon for the sugar. Oxygen is released." |} ].
Proof. vm_compute; reflexivity. Qed.

(** A later [A:] line replaces the answer read so far. *)
Example parseQuizResponse_second_answer :
  parseQuizResponse
    (str "Q: q" ++ nl :: str "A: one" ++ nl :: str "E: why" ++ nl :: str "A: two")
  = [ {| question := str "q"; answer := str "two";
         explanation := str "why" |} ].
Proof. vm_compute; reflexivity. Qed.

(** With nothing on the line of the marker, the first line that begins
    with neither [A:] nor [E:] is taken for the question, here the line
    that also continues the answer. *)
Example parseQuizResponse_question_after_answer :
  parseQuizResponse (str "Q:" ++ nl :: str "A: x" ++ nl :: str "more")
  = [ {| question := str "more"; answer := str "x more";
         explanation := [] |} ].
Proof. vm_compute; reflexivity. Qed.

Example next_state_example :
  VoiceQATab.trace (start VoiceQATab.Call Samples.voice_ready)
    [VoiceQATab.MainButtonClicked (Returned tt);
     VoiceQATab.VadActivity VoiceQATab.Ended (Some Samples.long_segment);
     VoiceQATab.MainButtonClicked (Returned tt);
     VoiceQATab.Transcription (str "late")]
  = [VoiceQATab.idle; VoiceQATab.listening; VoiceQATab.transcribing;
     VoiceQATab.idle; VoiceQATab.thinking].
Proof. vm_compute; reflexivity. Qed.

End Examples.

(** ** Strings *)

Section StringFacts.

Lemma char_eqb_refl (c : char) : char_eqb c c = true.
Proof. apply N.eqb_refl. Qed.

Lemma char_eqb_eq (a b : char) : char_eqb a b = true <-> a = b.
Proof. apply N.eqb_eq. Qed.

Lemma startsWith_app (p r : jsstring) : startsWith (p ++ r) p = true.
Proof.
  induction p as [|c p IH]; simpl; [reflexivity|].
  now rewrite char_eqb_refl, IH.
Qed.

Lemma startsWith_app_same (t a b : jsstring) :
  startsWith (t ++ a) (t ++ b) = startsWith a b.
Proof.
  induction t as [|c t IH]; simpl; [reflexivity|].
  now rewrite char_eqb_refl, IH.
Qed.

Lemma startsWith_split (s p : jsstring) :
  startsWith s p = true -> exists r, s = p ++ r.
Proof.
  revert s; induction p as [|c p IH]; intros s H.
  - now exists s.
  - destruct s as [|b s]; simpl in H; [discriminate|].
    apply andb_prop in H as [Hc Hs].
    apply char_eqb_eq in Hc; subst b.
    destruct (IH _ Hs) as [r ->]. now exists r.
Qed.

Lemma includes_here (s p : jsstring) :
  startsWith s p = true -> includes s p = true.
Proof. destruct s; simpl; intros ->; reflexivity. Qed.

Lemma includes_cons (c : char) (s p : jsstring) :
  includes s p = true -> includes (c :: s) p = true.
Proof. simpl; intros ->; apply orb_true_r. Qed.

Lemma includes_app_r (a b p : jsstring) :
  includes b p = true -> includes (a ++ b) p = true.
Proof.
  intros H; induction a as [|c a IH]; [exact H|].
  simpl app. now apply includes_cons.
Qed.

(** *** Trimming *)

Lemma trimStart_keeps (c : char) (s : jsstring) :
  is_ws c = false -> trimStart (c :: s) = c :: s.
Proof. simpl; intros ->; reflexivity. Qed.

Lemma trimEnd_keeps (c : char) (s : jsstring) :
  is_ws c = false -> trimEnd (c :: s) = c :: trimEnd s.
Proof. simpl; intros ->. destruct (trimEnd s); reflexivity. Qed.

Lemma trimStart_idem (s : jsstring) : trimStart (trimStart s) = trimStart s.
Proof.
  induction s as [|c s IH]; simpl; [reflexivity|].
  destruct (is_ws c) eqn:Hc; [exact IH|].
  simpl; now rewrite Hc.
Qed.

Lemma trimEnd_idem (s : jsstring) : trimEnd (trimEnd s) = trimEnd s.
Proof.
  induction s as [|c s IH]; simpl; [reflexivity|].
  destruct (trimEnd s) as [|d r] eqn:Hs.
  - destruct (is_ws c) eqn:Hc; simpl; [reflexivity|]. now rewrite Hc.
  - change (trimEnd (c :: d :: r)) with
      (match trimEnd (d :: r) with
       | [] => if is_ws c then [] else [c]
       | x => c :: x
       end).
    now rewrite IH.
Qed.

Lemma trimStart_trimEnd (s : jsstring) :
  trimStart (trimEnd s) = trimEnd (trimStart s).
Proof.
  induction s as [|c s IH]; [reflexivity|].
  destruct (is_ws c) eqn:Hc.
  - simpl. rewrite Hc. rewrite <- IH.
    destruct (trimEnd s); simpl; now rewrite ?Hc.
  - rewrite (trimStart_keeps _ _ Hc), (trimEnd_keeps _ _ Hc).
    now apply trimStart_keeps.
Qed.

Lemma trim_idem (s : jsstring) : trim (trim s) = trim s.
Proof.
  unfold trim.
  now rewrite trimStart_trimEnd, trimEnd_idem, trimStart_idem.
Qed.

Lemma trim_trimEnd (s : jsstring) : trim (trimEnd s) = trim s.
Proof. unfold trim. now rewrite trimStart_trimEnd, trimEnd_idem. Qed.

Lemma trimEnd_prefix (s : jsstring) : exists w, s = trimEnd s ++ w.
Proof.
  induction s as [|c s [w IH]]; [now exists []|].
  simpl. destruct (trimEnd s) as [|d r].
  - destruct (is_ws c); [now exists (c :: s) | now exists s].
  - exists w. simpl. now rewrite IH at 1.
Qed.

Lemma trimStart_suffix (s : jsstring) : exists w, s = w ++ trimStart s.
Proof.
  induction s as [|c s [w IH]]; [now exists []|].
  simpl. destruct (is_ws c); [|now exists []].
  exists (c :: w). simpl. now rewrite IH at 1.
Qed.

Lemma truthy_trim (s : jsstring) :
  truthy (trim s) = negb (forallb is_ws s).
Proof.
  unfold trim. induction s as [|c s IH]; [reflexivity|].
  simpl. destruct (is_ws c) eqn:Hc; [exact IH|].
  simpl. rewrite Hc. destruct (trimEnd s); reflexivity.
Qed.

(** *** Lines *)

Lemma split_nl_line (l : jsstring) :
  QuizFormat.one_line l = true -> split_nl l = [l].
Proof.
  induction l as [|c l IH]; simpl; [reflexivity|].
  intros H. apply andb_prop in H as [Hc Hl].
  apply negb_true_iff in Hc. rewrite Hc, (IH Hl). reflexivity.
Qed.

Lemma split_nl_app (l x : jsstring) :
  QuizFormat.one_line l = true -> split_nl (l ++ nl :: x) = l :: split_nl x.
Proof.
  induction l as [|c l IH]; simpl; [reflexivity|].
  intros H. apply andb_prop in H as [Hc Hl].
  apply negb_true_iff in Hc. rewrite Hc, (IH Hl). reflexivity.
Qed.

Lemma split_nl_join_nl (ls : list jsstring) :
  ls <> [] -> forallb QuizFormat.one_line ls = true -> split_nl (join_nl ls) = ls.
Proof.
  induction ls as [|l ls IH]; [congruence|]. intros _ H.
  cbn [forallb] in H. apply andb_prop in H as [Hl Hls].
  destruct ls as [|l' ls].
  - simpl. now apply split_nl_line.
  - change (join_nl (l :: l' :: ls)) with (l ++ nl :: join_nl (l' :: ls)).
    rewrite (split_nl_app _ _ Hl), IH; [reflexivity | congruence | exact Hls].
Qed.

Lemma join_nl_contains (ls : list jsstring) (l : jsstring) :
  In l ls -> exists pre post, join_nl ls = pre ++ l ++ post.
Proof.
  induction ls as [|l0 ls IH]; [contradiction|]. intros [<- | Hin].
  - destruct ls as [|l' ls].
    + exists [], []. simpl. now rewrite app_nil_r.
    + exists [], (nl :: join_nl (l' :: ls)). reflexivity.
  - destruct (IH Hin) as [pre [post Heq]].
    destruct ls as [|l' ls]; [contradiction|].
    exists (l0 ++ nl :: pre), post.
    change (join_nl (l0 :: l' :: ls)) with (l0 ++ nl :: join_nl (l' :: ls)).
    rewrite Heq, <- app_assoc. reflexivity.
Qed.

End StringFacts.

(** ** The handlers of QuizTab *)

Section QuizTabHandler.

Import QuizTab QuizFormat.

Lemma of_nat_count_label n :
  In n [3; 5; 7; 10] -> of_nat n = count_label n.
Proof.
  simpl; intros [<- | [<- | [<- | [<- | []]]]]; reflexivity.
Qed.

Lemma build_prompt_first_sentence n d t :
  In n [3; 5; 7; 10] ->
  startsWith (build_prompt n d t) (first_sentence n d t) = true.
Proof.
  intros Hn.
  unfold build_prompt, first_sentence.
  rewrite (of_nat_count_label _ Hn).
  destruct d; cbn [difficulty_str];
    repeat rewrite startsWith_app_same;
    simpl; rewrite ?char_eqb_refl; simpl;
    rewrite ?startsWith_app_same;
    reflexivity.
Qed.

Lemma build_prompt_format n d t :
  includes (build_prompt n d t)
    (str "Q: [question here]" ++ nl ::
     str "A: [answer here]" ++ nl ::
     str "E: [explanation here]") = true.
Proof.
  unfold build_prompt.
  do 5 apply includes_app_r.
  apply includes_cons, includes_app_r.
  vm_compute; reflexivity.
Qed.

(** C5.  For every topic, difficulty and question count among 3, 5, 7
    and 10, [handleGenerate] of QuizTab calls
    [TextGeneration.generateStream] once when the topic is not blank
    (and not at all when it is), with the prompt built from
    [numQuestions], [difficulty] and [topic] alone; that prompt begins
    with the sentence [Generate exactly <numQuestions> <difficulty>
    level quiz questions about "<topic>".], the count written in
    decimal and the difficulty as easy, medium or hard, and contains the
    three lines [Q: [question here]], [A: [answer here]] and
    [E: [explanation here]] that give the format. *)
Theorem prompt_of_inputs (s : State) (generated : outcome stream) :
  In (numQuestions s) [3; 5; 7; 10] ->
  let prompt := build_prompt (numQuestions s) (difficulty s) (topic s) in
  filter (fun c => match c with GenerateStream _ _ => true | _ => false end)
         (calls (snd (handleGenerate generated (start Call s))))
  = (if truthy (trim (topic s)) then [GenerateStream prompt gen_options]
     else [])
  /\ startsWith prompt
       (str "Generate exactly "
        ++ match numQuestions s with
           | 3 => str "3"
           | 5 => str "5"
           | 7 => str "7"
           | _ => str "10"
           end
        ++ str " "
        ++ match difficulty s with
           | easy => str "easy"
           | medium => str "medium"
           | hard => str "hard"
           end
        ++ str " level quiz questions about "
        ++ dquote :: topic s ++ dquote :: str ".") = true
  /\ includes prompt
       (str "Q: [question here]" ++ nl ::
        str "A: [answer here]" ++ nl ::
        str "E: [explanation here]") = true.
Proof.
  intros Hn prompt. split; [|split].
  - unfold handleGenerate, bind, get, start; simpl.
    destruct (truthy (trim (topic s))); simpl; [|reflexivity].
    destruct generated as [[tokens|tokens err]|err]; simpl; try reflexivity.
    destruct (length (parseQuizResponse (concat tokens)) =? 0);
      reflexivity.
  - pose proof (build_prompt_first_sentence _ (difficulty s) (topic s) Hn)
      as H.
    unfold first_sentence in H.
    assert (Hc : count_label (numQuestions s)
                 = match numQuestions s with
                   | 3 => str "3"
                   | 5 => str "5"
                   | 7 => str "7"
                   | _ => str "10"
                   end)
      by (simpl in Hn; destruct Hn as [<- | [<- | [<- | [<- | []]]]];
          reflexivity).
    rewrite Hc in H. exact H.
  - apply build_prompt_format.
Qed.

Lemma prompt_of_inputs_witness :
  In (numQuestions Samples.quiz_with_topic) [3; 5; 7; 10]
  /\ filter (fun c => match c with GenerateStream _ _ => true | _ => false end)
       (calls (snd (handleGenerate (Threw (OtherValue []))
                      (start Call Samples.quiz_with_topic))))
     = [GenerateStream (build_prompt 5 medium (str "Photosynthesis"))
          gen_options]
  /\ startsWith
       (build_prompt 5 medium (str "Photosynthesis"))
       (str "Generate exactly 5 medium level quiz questions about "
        ++ dquote :: str "Photosynthesis" ++ dquote :: str ".") = true
  /\ includes
       (build_prompt 5 medium (str "Photosynthesis"))
       (str "Q: [question here]" ++ nl ::
        str "A: [answer here]" ++ nl ::
        str "E: [explanation here]") = true.
Proof.
  split; [right; left; reflexivity|].
  apply (prompt_of_inputs Samples.quiz_with_topic (Threw (OtherValue []))).
  right; left; reflexivity.
Defined.

End QuizTabHandler.

Section QuizTabParsing.

Import QuizTab QuizFormat.

Lemma truthy_nonempty (s : jsstring) : truthy s = true <-> s <> [].
Proof. destruct s; simpl; split; congruence. Qed.




Lemma fold_push_part (ps : list jsstring) (acc : list QuizQuestion) :
  fold_left push_part ps acc = acc ++ flat_map items_of_part ps.
Proof.
  revert acc; induction ps as [|part ps IH]; intros acc; simpl.
  - now rewrite app_nil_r.
  - rewrite IH. unfold push_part, items_of_part.
    destruct (parse_part part); simpl.
    + now rewrite <- app_assoc.
    + reflexivity.
Qed.


(** *** Splitting at the markers *)

Lemma skip_digits_length (s : jsstring) :
  length (skip_digits s) <= length s.
Proof.
  induction s as [|c s IH]; simpl; [lia|].
  destruct (is_digit c); simpl; lia.
Qed.

Lemma match_marker_length (s r : jsstring) :
  match_marker s = Some r -> length r < length s.
Proof.
  destruct s as [|c s]; simpl; [discriminate|].
  destruct (char_eqb c 81%N); [|discriminate].
  pose proof (skip_digits_length s) as Hlen.
  destruct (skip_digits s) as [|d r']; [discriminate|].
  destruct (char_eqb d 58%N); [|discriminate].
  intros [= <-]. simpl in Hlen. lia.
Qed.

(** Any fuel from the length of the text on gives the same split. *)
Lemma split_marker_from_fuel (fuel1 fuel2 : nat) (cur s : jsstring) :
  length s <= fuel1 -> length s <= fuel2 ->
  split_marker_from fuel1 cur s = split_marker_from fuel2 cur s.
Proof.
  revert fuel2 cur s.
  induction fuel1 as [|fuel1 IH]; intros fuel2 cur s H1 H2.
  - destruct s; [|simpl in H1; lia].
    destruct fuel2; simpl; now rewrite ?app_nil_r.
  - destruct s as [|c s].
    + destruct fuel2; simpl; now rewrite ?app_nil_r.
    + destruct fuel2 as [|fuel2]; [simpl in H2; lia|].
      cbn [split_marker_from].
      destruct (match_marker (c :: s)) as [r|] eqn:Hm.
      * apply match_marker_length in Hm. simpl in *.
        f_equal. apply IH; lia.
      * simpl in *. apply IH; lia.
Qed.

Lemma split_from_nil (cur : jsstring) : split_from cur [] = [cur].
Proof. unfold split_from; simpl. now rewrite app_nil_r. Qed.

Lemma split_from_match (cur s r : jsstring) :
  match_marker s = Some r -> split_from cur s = cur :: split_from [] r.
Proof.
  intros Hm. unfold split_from.
  destruct s as [|c s]; [discriminate|].
  cbn [length split_marker_from]. rewrite Hm. f_equal.
  apply match_marker_length in Hm. simpl in Hm.
  apply split_marker_from_fuel; lia.
Qed.

Lemma split_from_skip (cur : jsstring) (c : char) (s : jsstring) :
  match_marker (c :: s) = None ->
  split_from cur (c :: s) = split_from (cur ++ [c]) s.
Proof.
  intros Hm. unfold split_from.
  cbn [length split_marker_from]. now rewrite Hm.
Qed.

Lemma skip_digits_before (s rest : jsstring) :
  at_marker rest ->
  match skip_digits s with
  | [] => skip_digits (s ++ rest) = rest
  | d :: r => skip_digits (s ++ rest) = d :: r ++ rest
  end.
Proof.
  intros Hrest. induction s as [|c s IH]; simpl.
  - destruct Hrest as [-> | [r ->]]; reflexivity.
  - destruct (is_digit c); [exact IH | reflexivity].
Qed.

Lemma match_marker_before (s rest : jsstring) :
  s <> [] -> at_marker rest ->
  match_marker s = None -> match_marker (s ++ rest) = None.
Proof.
  intros Hs Hrest. destruct s as [|c s]; [congruence|]. simpl.
  destruct (char_eqb c 81%N); [|reflexivity].
  pose proof (skip_digits_before s rest Hrest) as H.
  destruct (skip_digits s) as [|d r]; rewrite H.
  - destruct Hrest as [-> | [r ->]]; reflexivity.
  - destruct (char_eqb d 58%N); [discriminate | reflexivity].
Qed.

Lemma match_marker_number (num rest : jsstring) :
  forallb is_digit num = true ->
  match_marker (81%N :: num ++ 58%N :: rest) = Some rest.
Proof.
  intros Hnum. simpl.
  assert (H : skip_digits (num ++ 58%N :: rest) = 58%N :: rest).
  { induction num as [|c num IH]; [reflexivity|].
    simpl in *. apply andb_prop in Hnum as [Hc Hnum].
    rewrite Hc. now apply IH. }
  now rewrite H.
Qed.

Lemma split_from_body (body cur rest : jsstring) :
  marker_free body = true -> at_marker rest ->
  split_from cur (body ++ rest) = split_from (cur ++ body) rest.
Proof.
  intros Hfree Hrest. revert cur.
  induction body as [|c body IH]; intros cur.
  - now rewrite app_nil_r.
  - cbn [marker_free] in Hfree.
    destruct (match_marker (c :: body)) eqn:Hm; [discriminate|].
    assert (Hm' : match_marker ((c :: body) ++ rest) = None)
      by (apply match_marker_before; [discriminate | assumption..]).
    simpl app in *. rewrite (split_from_skip _ _ _ Hm'), (IH Hfree).
    now rewrite <- app_assoc.
Qed.

Lemma render_at_marker (bs : list Block) : at_marker (render bs).
Proof.
  destruct bs as [|b bs]; [now left | right].
  unfold render; simpl. eexists; reflexivity.
Qed.

Lemma split_from_render (bs : list Block) (cur : jsstring) :
  forallb parseable bs = true ->
  split_from cur (render bs) = cur :: map block_body bs.
Proof.
  revert cur; induction bs as [|b bs IH]; intros cur Hbs.
  - apply split_from_nil.
  - cbn [forallb] in Hbs. apply andb_prop in Hbs as [Hb Hbs].
    unfold parseable, in_format in Hb.
    repeat (apply andb_prop in Hb as [Hb ?]).
    change (render (b :: bs))
      with ((81%N :: number b ++ 58%N :: block_body b) ++ render bs).
    simpl app. rewrite <- app_assoc. simpl app.
    rewrite (split_from_match cur _ (block_body b ++ render bs)).
    + rewrite split_from_body; [|assumption|apply render_at_marker].
      simpl app. now rewrite IH.
    + now apply match_marker_number.
Qed.

(** *** The lines of a block *)

Lemma blank_trim (l : jsstring) : blank l = true -> trim l = [].
Proof.
  intros H. pose proof (truthy_trim l) as Ht.
  unfold blank in H. rewrite H in Ht. now destruct (trim l).
Qed.

Lemma trim_marked (c : char) (t : jsstring) :
  is_ws c = false ->
  trim (c :: 58%N :: t) = c :: 58%N :: trimEnd t.
Proof.
  intros Hc. unfold trim.
  rewrite (trimStart_keeps _ _ Hc), (trimEnd_keeps _ _ Hc).
  now rewrite trimEnd_keeps.
Qed.

Lemma filter_truthy_plain (more : list jsstring) :
  forallb plain_line more = true ->
  filter truthy (map trim more) = map trim more.
Proof.
  induction more as [|l more IH]; [reflexivity|]. intros H.
  cbn [forallb] in H. apply andb_prop in H as [Hl Hmore].
  unfold plain_line in Hl.
  apply andb_prop in Hl as [Hl _]. apply andb_prop in Hl as [Hl _].
  cbn [map filter]. now rewrite Hl, IH.
Qed.

Lemma filter_truthy_blank (ls : list jsstring) :
  forallb (fun l => one_line l && blank l) ls = true ->
  filter truthy (map trim ls) = [].
Proof.
  induction ls as [|l ls IH]; [reflexivity|]. intros H.
  cbn [forallb] in H. apply andb_prop in H as [Hl Hls].
  apply andb_prop in Hl as [_ Hl].
  cbn [map filter]. now rewrite (blank_trim _ Hl), IH.
Qed.

Lemma forallb_one_line_blank (ls : list jsstring) :
  forallb (fun l => one_line l && blank l) ls = true ->
  forallb one_line ls = true.
Proof.
  induction ls as [|l ls IH]; [reflexivity|]. intros H.
  cbn [forallb] in *. apply andb_prop in H as [Hl Hls].
  apply andb_prop in Hl as [Hl _]. now rewrite Hl, IH.
Qed.

Lemma one_line_marked (p t : jsstring) :
  one_line p = true -> one_line t = true -> one_line (p ++ t) = true.
Proof. unfold one_line. intros Hp Ht. now rewrite forallb_app, Hp, Ht. Qed.

Lemma parseable_inv (b : Block) :
  parseable b = true ->
  forallb is_digit (number b) = true
  /\ one_line (question_line b) = true
  /\ one_line (answer_text b) = true
  /\ forallb one_line (answer_more b) = true
  /\ one_line (explanation_text b) = true
  /\ forallb one_line (explanation_more b) = true
  /\ forallb (fun l => one_line l && blank l) (blank_after b) = true
  /\ marker_free (block_body b) = true
  /\ plain_line (question_line b) = true
  /\ forallb plain_line (answer_more b) = true
  /\ forallb plain_line (explanation_more b) = true
  /\ truthy (with_more (trim (answer_text b)) (answer_more b)) = true.
Proof.
  unfold parseable, in_format. intros Hb.
  repeat (apply andb_prop in Hb as [Hb ?]).
  repeat split; assumption.
Qed.

Lemma lines_of_block (b : Block) :
  parseable b = true ->
  lines_of (block_body b)
  = trim (question_line b) :: (A_ ++ trimEnd (answer_text b))
    :: map trim (answer_more b)
    ++ (E_ ++ trimEnd (explanation_text b))
    :: map trim (explanation_more b).
Proof.
  intros Hb.
  destruct (parseable_inv b Hb)
    as (_ & Hq1 & Ha1 & Ham1 & He1 & Hem1 & Hblank & _ & Hq & Ham & Hem & _).
  unfold lines_of, block_body.
  rewrite split_nl_join_nl.
  - unfold block_lines.
    cbn [map filter]. rewrite map_app, filter_app.
    cbn [map filter]. rewrite map_app, filter_app.
    rewrite (filter_truthy_blank (blank_after b)) by assumption.
    rewrite !filter_truthy_plain by assumption.
    unfold plain_line in Hq.
    apply andb_prop in Hq as [Hq _]; apply andb_prop in Hq as [Hq _].
    rewrite Hq.
    change (A_ ++ answer_text b) with (65%N :: 58%N :: answer_text b).
    change (E_ ++ explanation_text b)
      with (69%N :: 58%N :: explanation_text b).
    rewrite !trim_marked by reflexivity.
    cbn [truthy]. now rewrite app_nil_r.
  - unfold block_lines; discriminate.
  - unfold block_lines. cbn [forallb]. rewrite forallb_app.
    cbn [forallb]. rewrite forallb_app.
    rewrite Hq1, Ham1, Hem1, (forallb_one_line_blank _ Hblank).
    rewrite !one_line_marked by (reflexivity || assumption).
    reflexivity.
Qed.

(** *** Reading the lines of a block *)

Lemma plain_line_inv (l : jsstring) :
  plain_line l = true ->
  truthy (trim l) = true
  /\ startsWith (trim l) A_ = false
  /\ startsWith (trim l) E_ = false.
Proof.
  unfold plain_line. intros H.
  apply andb_prop in H as [H HE]. apply andb_prop in H as [Ht HA].
  apply negb_true_iff in HA, HE. now repeat split.
Qed.

Lemma marker_free_no_marker (x y : jsstring) :
  marker_free (x ++ 81%N :: 58%N :: y) = false.
Proof.
  induction x as [|c x IH]; [reflexivity|].
  simpl app. cbn [marker_free].
  destruct (match_marker (c :: x ++ 81%N :: 58%N :: y)); [reflexivity|].
  exact IH.
Qed.

Lemma marker_free_no_Q (pre l post : jsstring) :
  marker_free (pre ++ l ++ post) = true -> startsWith (trim l) Q_ = false.
Proof.
  intros Hfree.
  destruct (startsWith (trim l) Q_) eqn:HQ; [exfalso | reflexivity].
  apply startsWith_split in HQ as [r Hr]. unfold trim in Hr.
  destruct (trimEnd_prefix (trimStart l)) as [w Hw].
  destruct (trimStart_suffix l) as [w' Hw'].
  rewrite Hr in Hw. rewrite Hw in Hw'. rewrite Hw' in Hfree.
  change (Q_ ++ r) with (81%N :: 58%N :: r) in Hfree.
  rewrite <- !app_assoc in Hfree. simpl app in Hfree.
  rewrite app_assoc in Hfree.
  now rewrite marker_free_no_marker in Hfree.
Qed.

Lemma block_more_no_Q (b : Block) (l : jsstring) :
  marker_free (block_body b) = true ->
  In l (answer_more b) \/ In l (explanation_more b) ->
  startsWith (trim l) Q_ = false.
Proof.
  intros Hfree Hin.
  assert (Hl : In l (block_lines b)).
  { unfold block_lines. right; right.
    apply in_or_app. destruct Hin as [Hin | Hin]; [now left | right].
    right. apply in_or_app. now left. }
  destruct (join_nl_contains _ _ Hl) as [pre [post Heq]].
  unfold block_body in Hfree. rewrite Heq in Hfree.
  exact (marker_free_no_Q _ _ _ Hfree).
Qed.

Lemma answer_rest_more (more : list jsstring) (acc x : jsstring)
    (rest : list jsstring) :
  forallb plain_line more = true ->
  (forall l, In l more -> startsWith (trim l) Q_ = false) ->
  answer_rest (map trim more ++ (E_ ++ x) :: rest) acc = with_more acc more.
Proof.
  revert acc; induction more as [|l more IH]; intros acc Hplain HQ.
  - cbn [map app answer_rest]. now rewrite startsWith_app.
  - cbn [forallb] in Hplain. apply andb_prop in Hplain as [Hl Hmore].
    destruct (plain_line_inv _ Hl) as (_ & HA & HE).
    cbn [map app answer_rest].
    rewrite HE, HA, (HQ l (or_introl eq_refl)). cbn [negb andb].
    rewrite trim_idem. unfold with_more; cbn [fold_left].
    apply IH; [exact Hmore | intros l' Hl'; apply HQ; now right].
Qed.

Lemma explanation_rest_more (more : list jsstring) (acc : jsstring) :
  forallb plain_line more = true ->
  (forall l, In l more -> startsWith (trim l) Q_ = false) ->
  explanation_rest (map trim more) acc = with_more acc more.
Proof.
  revert acc; induction more as [|l more IH]; intros acc Hplain HQ;
    [reflexivity|].
  cbn [forallb] in Hplain. apply andb_prop in Hplain as [Hl Hmore].
  destruct (plain_line_inv _ Hl) as (_ & HA & HE).
  cbn [map explanation_rest].
  rewrite HE, HA, (HQ l (or_introl eq_refl)). cbn [negb andb].
  rewrite trim_idem. unfold with_more; cbn [fold_left].
  apply IH; [exact Hmore | intros l' Hl'; apply HQ; now right].
Qed.

Lemma scan_lines_more (more rest : list jsstring) (q a e : jsstring) :
  truthy q = true ->
  forallb plain_line more = true ->
  scan_lines (map trim more ++ rest) q a e = scan_lines rest q a e.
Proof.
  intros Hq. induction more as [|l more IH]; intros Hplain;
    [reflexivity|].
  cbn [forallb] in Hplain. apply andb_prop in Hplain as [Hl Hmore].
  destruct (plain_line_inv _ Hl) as (_ & HA & HE).
  cbn [map app scan_lines]. rewrite HA, HE, Hq. cbn [negb andb].
  now apply IH.
Qed.

Lemma parse_part_block (b : Block) :
  parseable b = true -> parse_part (block_body b) = Some (item_of b).
Proof.
  intros Hb.
  destruct (parseable_inv b Hb)
    as (_ & _ & _ & _ & _ & _ & _ & Hfree & Hq & Ham & Hem & Hanswer).
  destruct (plain_line_inv _ Hq) as (Hqt & HqA & HqE).
  unfold parse_part. rewrite (lines_of_block b Hb).
  cbn [scan_lines]. rewrite HqA, HqE. cbn [truthy negb andb].
  rewrite startsWith_app.
  change (substring 2 (A_ ++ trimEnd (answer_text b)))
    with (trimEnd (answer_text b)).
  rewrite trim_trimEnd.
  rewrite answer_rest_more;
    [|exact Ham|intros l Hl; apply (block_more_no_Q b); auto].
  rewrite scan_lines_more by assumption.
  cbn [scan_lines].
  change (startsWith (E_ ++ trimEnd (explanation_text b)) A_) with false.
  rewrite startsWith_app.
  change (substring 2 (E_ ++ trimEnd (explanation_text b)))
    with (trimEnd (explanation_text b)).
  rewrite trim_trimEnd.
  rewrite explanation_rest_more;
    [|exact Hem|intros l Hl; apply (block_more_no_Q b); auto].
  rewrite <- (app_nil_r (map trim (explanation_more b))).
  rewrite scan_lines_more by assumption.
  cbn [scan_lines]. rewrite Hqt, Hanswer. reflexivity.
Qed.

Lemma block_body_truthy (b : Block) :
  parseable b = true -> truthy (trim (block_body b)) = true.
Proof.
  intros Hb.
  destruct (parseable_inv b Hb)
    as (_ & _ & _ & _ & _ & _ & _ & _ & Hq & _).
  destruct (plain_line_inv _ Hq) as (Hqt & _).
  rewrite truthy_trim in *.
  unfold block_body, block_lines.
  change (join_nl (question_line b :: ?x :: ?y))
    with (question_line b ++ nl :: join_nl (x :: y)).
  rewrite forallb_app. apply negb_true_iff in Hqt. now rewrite Hqt.
Qed.

Lemma parts_render (bs : list Block) :
  forallb parseable bs = true -> parts (render bs) = map block_body bs.
Proof.
  intros Hbs. unfold parts, split_marker.
  change (split_marker_from (length (render bs)) [] (render bs))
    with (split_from [] (render bs)).
  rewrite (split_from_render bs [] Hbs). cbn [filter trim trimStart trimEnd truthy].
  induction bs as [|b bs IH]; [reflexivity|].
  cbn [forallb] in Hbs. apply andb_prop in Hbs as [Hb Hbs].
  cbn [map filter]. now rewrite (block_body_truthy b Hb), IH.
Qed.

(** C1, as the code has it.  For a completion made of blocks in the
    format, each a marker [Q:] or [Q<digits>:] with the question on the
    rest of its line, an [A:] line and the lines that continue it, an
    [E:] line and the lines that continue it, and blank lines up to the
    next marker, [parseQuizResponse] returns one item per block, in
    order, with the trimmed question line as question and the trimmed
    text of the [A:] line (of the [E:] line) followed by its trimmed
    continuation lines, single spaces between, as answer (as
    explanation), provided that in each block no [Q<digits>:] occurs
    after the marker, the question line and the continuation lines are
    not blank and do not begin with [A:] or [E:] once trimmed, and the
    answer is not empty. *)
Theorem parseQuizResponse_blocks (bs : list Block) :
  forallb parseable bs = true ->
  parseQuizResponse (render bs) = map item_of bs.
Proof.
  intros Hbs. unfold parseQuizResponse.
  rewrite (parts_render bs Hbs), fold_push_part. simpl app.
  induction bs as [|b bs IH]; [reflexivity|].
  cbn [forallb] in Hbs. apply andb_prop in Hbs as [Hb Hbs].
  cbn [map flat_map]. unfold items_of_part at 1.
  now rewrite (parse_part_block b Hb), IH.
Qed.

Lemma parseQuizResponse_blocks_witness :
  forallb parseable Samples.two_blocks = true
  /\ parseQuizResponse (render Samples.two_blocks)
     = map item_of Samples.two_blocks.
Proof.
  split; [vm_compute; reflexivity|].
  apply (parseQuizResponse_blocks Samples.two_blocks).
  vm_compute; reflexivity.
Defined.

(** C1, as the specification words it, fails: a block in the format
    whose question line holds [Q:] (here in [FAQ:]) is cut there, what
    precedes the cut is dropped and the item has only what follows it
    as question. *)
Lemma marker_in_question_cuts_block :
  in_format Samples.faq_block = true
  /\ parseQuizResponse (render [Samples.faq_block])
     = [ {| question := str "stand for?";
            answer := str "Frequently asked questions";
            explanation := str "It is an abbreviation." |} ]
  /\ parseQuizResponse (render [Samples.faq_block])
     <> map item_of [Samples.faq_block].
Proof.
  split; [reflexivity|]. split; [vm_compute; reflexivity|].
  vm_compute. discriminate.
Qed.



(** C10.  When the completion parses to no item, [handleGenerate] of
    QuizTab stores the message [Failed to parse quiz questions. Please
    try again.] and the list of questions stays empty; the parsed items
    replace the list of questions only when there is at least one. *)
Theorem empty_parse_reports_failure (s : State) (tokens : list jsstring) :
  truthy (trim (topic s)) = true ->
  let parsed := parseQuizResponse (concat tokens) in
  let s' := state (snd (handleGenerate (Returned (StreamEnds tokens))
                          (start Call s))) in
  (parsed = [] ->
     error s' = Some (str "Failed to parse quiz questions. Please try again.")
     /\ questions s' = [])
  /\ (parsed <> [] -> questions s' = parsed /\ error s' = None)
  /\ isGenerating s' = false.
Proof.
  intros Htopic parsed s'.
  unfold s', handleGenerate, bind, get, start; simpl.
  rewrite Htopic; simpl.
  fold parsed.
  destruct parsed as [|item items]; simpl.
  - repeat split; congruence.
  - repeat split; congruence.
Qed.

Lemma empty_parse_reports_failure_witness :
  truthy (trim (topic Samples.quiz_with_topic)) = true
  /\ parseQuizResponse (concat [str "I can not "; str "do that."]) = []
  /\ error (state (snd (handleGenerate
              (Returned (StreamEnds [str "I can not "; str "do that."]))
              (start Call Samples.quiz_with_topic))))
     = Some (str "Failed to parse quiz questions. Please try again.").
Proof.
  split; [reflexivity|]. split; [vm_compute; reflexivity|].
  apply (empty_parse_reports_failure Samples.quiz_with_topic
           [str "I can not "; str "do that."]).
  - reflexivity.
  - vm_compute; reflexivity.
Defined.

End QuizTabParsing.

(** ** The handler of TextToAudioTab *)

Section TextToAudioTabHandler.

Import TextToAudioTab.

(** C7.  When [TTS.synthesize] resolves, [handleGenerate] of
    TextToAudioTab has called it once, with the text as entered and
    speed 1.0, and the stats shown have the length of the audio data
    divided by the sample rate of the result as duration, and the sample
    rate of the result as sample rate. *)
Theorem synthesis_stats (s : State) (env : Answers) (result : TtsResult) :
  truthy (trim (text s)) = true ->
  synthesized env = Returned result ->
  let w := snd (handleGenerate env (start Call s)) in
  filter (fun c => match c with TtsSynthesize _ _ => true | _ => false end)
         (calls w)
  = [TtsSynthesize (text s) 1%float]
  /\ audioStats (state w)
     = Some {| duration :=
                 (number_of_length (length (audioData result))
                  / resultSampleRate result)%float;
               generationTime :=
                 ((endTime env - startTime env) / 1000)%float;
               sampleRate := resultSampleRate result |}.
Proof.
  intros Htext Hsyn w.
  unfold w, handleGenerate, bind, get, start, try_finally, try_catch, when.
  destruct s as [txt gen err stats ctx src]; simpl in *.
  rewrite Htext; simpl.
  destruct src, ctx; simpl;
    rewrite Hsyn; simpl;
    destruct (suspended env); simpl;
    destruct (resumed env) as [[]|]; simpl;
    destruct (bufferCreated env) as [[]|]; simpl;
    destruct (sourceStarted env) as [[]|]; simpl;
    split; reflexivity.
Qed.

Lemma synthesis_stats_witness :
  truthy (trim (text Samples.audio_with_text)) = true
  /\ audioStats (state (snd (handleGenerate Samples.audio_answers
                               (start Call Samples.audio_with_text))))
     = Some {| duration := 2%float;
               generationTime := 0.25%float;
               sampleRate := 2%float |}.
Proof.
  split; [reflexivity|].
  apply (synthesis_stats Samples.audio_with_text Samples.audio_answers
           {| audioData := repeat 0%float 4;
              resultSampleRate := 2%float |});
    reflexivity.
Defined.

End TextToAudioTabHandler.

(** ** The handlers of VoiceQATab *)

Section VoiceQATabHandlers.

Import VoiceQATab.

Ltac unfold_handlers :=
  unfold step, handle, main_button, startListening, stopListening,
    onSpeechActivity, processTurn_called, processTurn_catch,
    onTranscription, onResponseToken, onResponseComplete,
    onSynthesisComplete, onStateChange, clearHistory, handleLoadModels,
    effect_cleanup, effect_body, user_text,
    rendered, evaluate,
    bind, get, modify, await, invoke, console_error, try_catch, when, ret.

Ltac case_split :=
  repeat match goal with
    | |- context [if ?b then _ else _] => destruct b eqn:?; simpl
    | |- context [match ?x with _ => _ end] => destruct x eqn:?; simpl
    end.

Ltac contradictory :=
  repeat match goal with b : bool |- _ => destruct b end;
  simpl in *; congruence.

Lemma step_pipelineState (w : world State Call) (e : event)
    (p' : PipelineState) :
  next_state (state w) e = Some p' -> pipelineState (state (step w e)) = p'.
Proof.
  destruct w as [[p t r err h cap play unsub pipe ready] cs lg].
  destruct e; unfold_handlers; simpl;
    try (intros [= <-]; reflexivity); try discriminate.
  all: case_split; intros [= <-]; try reflexivity; try discriminate.
  all: contradictory.
Qed.

Lemma step_history (w : world State Call) (e : event) :
  conversationHistory (state (step w e))
  = next_history (conversationHistory (state w)) e.
Proof.
  destruct w as [[p t r err h cap play unsub pipe ready] cs lg].
  destruct e; try (destruct result); unfold_handlers; simpl;
    try reflexivity.
  all: case_split; reflexivity.
Qed.

Lemma run_app (w : world State Call) (es1 es2 : list event) :
  run w (es1 ++ es2) = run (run w es1) es2.
Proof. apply fold_left_app. Qed.

(** An invariant that holds at the start and that every event keeps
    holds after every run. *)
Lemma run_invariant (P : State -> Prop) :
  (forall w e, P (state w) -> P (state (step w e))) ->
  forall es w, P (state w) -> P (state (run w es)).
Proof.
  intros Hstep es; induction es as [|e es IH]; intros w Hw; [exact Hw|].
  simpl. apply IH, Hstep, Hw.
Qed.

Lemma alternates_app (h : list Entry) (u a : Entry) :
  role u = user -> role a = assistant ->
  alternates h = true -> alternates (h ++ [u; a]) = true.
Proof.
  intros Hu Ha.
  assert (H : forall n h, length h <= n -> alternates h = true ->
                     alternates (h ++ [u; a]) = true).
  { induction n as [|n IH]; intros [|x [|y l]] Hlen Hl; simpl in *;
      try discriminate; try lia.
    - now rewrite Hu, Ha.
    - now rewrite Hu, Ha.
    - apply andb_prop in Hl as [Hxy Hl]. rewrite Hxy; simpl.
      apply IH; [lia | exact Hl]. }
  intros Hh. now apply (H (length h)).
Qed.

(** Whatever the events, the history is a sequence of pairs of a user
    entry and an assistant entry. *)
Lemma history_alternates (es : list event) :
  alternates (conversationHistory (state (run (start Call initial) es)))
  = true.
Proof.
  apply (run_invariant (fun s => alternates (conversationHistory s) = true)).
  - intros w e Hw. rewrite step_history.
    destruct e; simpl; try exact Hw; try reflexivity.
    destruct (user_text result transcript_seen); [|exact Hw].
    now apply alternates_app.
  - reflexivity.
Qed.

(** C9.  The claim holds of a turn only if the update of the history can
    be evaluated, and the code misses that: the updater reads [result],
    the [const] of the [await] that is still pending when the response is
    complete.  In a turn that runs as the pipeline runs it (button, end
    of a speech segment of 1601 samples, transcription, end of the
    response), the end of the response throws, and neither the pair of
    entries nor the state speaking is there afterwards: the history is
    still empty and the state is still thinking. *)
Theorem response_complete_appends_nothing :
  feasible Samples.turn_with_response = true
  /\ fst (handle (ResponseComplete (str "A cell is the unit of life.") None [])
            (run (start Call initial)
               [ModelsReady; MainButtonClicked (Returned tt);
                VadActivity Ended (Some Samples.long_segment);
                Transcription (str "what is a cell")]))
     = Threw not_initialized
  /\ conversationHistory
       (state (run (start Call initial) Samples.turn_with_response)) = []
  /\ pipelineState
       (state (run (start Call initial) Samples.turn_with_response))
     = thinking.
Proof. vm_compute. repeat split; reflexivity. Qed.

(** When [result] is bound, the pair is appended in one update. *)
Lemma response_complete_with_result (w : world State Call)
    (text transcription transcript : jsstring) :
  conversationHistory
    (state (step w (ResponseComplete text (Some transcription) transcript)))
  = conversationHistory (state w)
    ++ [ {| role := user;
            entry_text := if truthy transcription then transcription
                          else transcript |};
         {| role := assistant; entry_text := text |} ].
Proof. rewrite step_history. reflexivity. Qed.

Lemma step_pipeline_there (w : world State Call) (e : event) :
  pipeline_there (state w) -> pipeline_there (state (step w e)).
Proof.
  destruct w as [[p t r err h cap play unsub pipe ready] cs lg].
  unfold pipeline_there; simpl. intros [H1 H2].
  destruct e; try (destruct result); unfold_handlers; simpl;
    try (split; assumption).
  all: case_split; split; intros; try assumption; try reflexivity;
    try discriminate; try contradictory.
  all: destruct ready, pipe, unsub; simpl in *; try reflexivity;
    try discriminate; auto.
Qed.

Lemma run_pipeline_there (es : list event) :
  pipeline_there (state (run (start Call initial) es)).
Proof.
  apply run_invariant.
  - apply step_pipeline_there.
  - split; discriminate.
Qed.

Lemma step_VadActivity (w : world State Call) activity popped :
  step w (VadActivity activity popped)
  = {| state := if long_enough activity popped
                then setPipelineState transcribing (state w)
                else state w;
       calls := calls w
                ++ (if activity_eqb activity Ended
                    then [VadPopSpeechSegment] else [])
                ++ (if long_enough activity popped && pipelineRef (state w)
                    then match popped with
                         | Some seg =>
                             [PipelineProcessTurn (samples seg) turn_options]
                         | None => []
                         end
                    else []);
       logged := logged w |}.
Proof.
  destruct w as [[p t r err h cap play unsub pipe ready] cs lg].
  unfold long_enough.
  destruct activity, popped as [seg|]; unfold_handlers; simpl;
    rewrite ?app_nil_r; try reflexivity.
  destruct (1600 <? length (samples seg)); simpl;
    rewrite ?app_nil_r; try reflexivity.
  destruct pipe; simpl; rewrite <- ?app_assoc, ?app_nil_r; reflexivity.
Qed.

(** C6, as the code has it.  In any state the component has reached with
    the subscription to the VAD held, the end of a speech segment longer
    than 1600 samples
    makes the callback take the segment and call
    [VoicePipeline.processTurn] once, with the samples as they are and
    the options [maxTokens] 150, [temperature] 0.7 and the prompt of the
    study assistant; these are the only calls it makes. *)
Theorem speech_segment_delegated (es : list event) (seg : Segment) :
  let w := run (start Call initial) es in
  vadUnsubRef (state w) = true ->
  1600 < length (samples seg) ->
  calls (step w (VadActivity Ended (Some seg)))
  = calls w ++ [VadPopSpeechSegment;
                PipelineProcessTurn (samples seg) turn_options]
  /\ maxTokens turn_options = 150
  /\ temperature turn_options = 0x1.6666666666666p-1%float
  /\ systemPrompt turn_options
     = str "You are a helpful study assistant. Answer questions clearly and concisely. Focus on being educational and accurate. Keep responses brief and to the point.".
Proof.
  intros w Hsub Hlong.
  split; [|repeat split].
  destruct (run_pipeline_there es) as [H1 H2]. fold w in H1, H2.
  rewrite step_VadActivity. unfold long_enough.
  apply Nat.ltb_lt in Hlong.
  rewrite Hlong, (H1 (H2 Hsub)). reflexivity.
Qed.

(** C8.  The callback of the VAD starts a turn only for the activity
    [Ended] with a segment popped that has more than 1600 samples, which
    is more than a tenth of a second at the capture rate of 16000; for
    any other activity, or a segment that is missing or not longer, the
    state of the component stays as it is, and no turn is started. *)
Theorem turn_needs_long_segment (w : world State Call)
    (activity : SpeechActivity) (popped : option Segment) :
  let w' := step w (VadActivity activity popped) in
  let long :=
    activity_eqb activity Ended
    && match popped with
       | Some seg => 1600 <? length (samples seg)
       | None => false
       end in
  state w' = (if long then setPipelineState transcribing (state w)
              else state w)
  /\ turns_called w'
     = turns_called w + (if long && pipelineRef (state w) then 1 else 0)
  /\ (forall seg : Segment,
         (1600 <? length (samples seg)) = true
         <-> (capture_rate < 10 * N.of_nat (length (samples seg)))%N).
Proof.
  intros w' long. unfold w'. rewrite step_VadActivity.
  change (long_enough activity popped) with long.
  split; [reflexivity|split].
  - unfold turns_called; simpl.
    rewrite !filter_app, !length_app.
    assert (Hpop : length (filter
              (fun c => match c with
                        | PipelineProcessTurn _ _ => true
                        | _ => false
                        end)
              (if activity_eqb activity Ended
               then [VadPopSpeechSegment] else [])) = 0)
      by (destruct (activity_eqb activity Ended); reflexivity).
    rewrite Hpop; clear Hpop.
    destruct (long && pipelineRef (state w)) eqn:Hl; simpl; [|lia].
    destruct popped; [reflexivity|].
    unfold long in Hl. rewrite andb_false_r in Hl. discriminate.
  - intros seg. rewrite Nat.ltb_lt. unfold capture_rate. lia.
Qed.

Lemma states_after_app (w : world State Call) (es1 es2 : list event) :
  states_after w (es1 ++ es2)
  = states_after w es1 ++ states_after (run w es1) es2.
Proof.
  revert w; induction es1 as [|e es1 IH]; intros w; simpl; [reflexivity|].
  now rewrite IH.
Qed.

Lemma states_after_tokens (tokens : list (jsstring * jsstring))
    (w : world State Call) :
  let es := map (fun ta => ResponseToken (fst ta) (snd ta)) tokens in
  states_after w es = repeat (pipelineState (state w)) (length tokens)
  /\ pipelineState (state (run w es)) = pipelineState (state w).
Proof.
  revert w; induction tokens as [|ta tokens IH]; intros w; simpl.
  - split; reflexivity.
  - destruct (IH (step w (ResponseToken (fst ta) (snd ta)))) as [H1 H2].
    rewrite H1, H2.
    rewrite (step_pipelineState w (ResponseToken (fst ta) (snd ta))
               (pipelineState (state w)) eq_refl).
    split; reflexivity.
Qed.

(** C3, as the code has it.  Apart from the end of the response, each
    event sets [pipelineState] as the table [next_state] says: the main
    button leads from idle to listening (to idle when the microphone
    fails to start) and from any other state to idle, and does nothing
    before the models are ready; the end of a long enough speech segment
    leads to transcribing, the transcription to thinking, the end of the
    synthesis to idle once the playback is over (the state stays when the
    playback fails), a rejected turn to idle, each from whatever state is
    current; the other events leave it.  In a turn started from idle
    whose events come in the order of the pipeline with nothing in
    between, the state goes idle, listening, transcribing, thinking, with
    no step left out, and stays thinking while the tokens of the response
    come. *)
Theorem pipelineState_by_event (s : State) (seg : Segment)
    (transcription : jsstring) (tokens : list (jsstring * jsstring)) :
  pipelineState s = idle ->
  allModelsReady s = true ->
  1600 < length (samples seg) ->
  trace (start Call s) (turn_to_response seg transcription tokens)
  = [idle; listening; transcribing; thinking]
    ++ repeat thinking (length tokens)
  /\ (forall (w : world State Call) (e : event) (p : PipelineState),
         next_state (state w) e = Some p ->
         pipelineState (state (step w e)) = p).
Proof.
  intros Hidle Hready Hlong. split; [|apply step_pipelineState].
  apply Nat.ltb_lt in Hlong.
  unfold trace, turn_to_response.
  rewrite states_after_app.
  set (w3 := run (start Call s) _).
  destruct (states_after_tokens tokens w3) as [Htok _].
  rewrite Htok.
  assert (H3 : pipelineState (state w3) = thinking)
    by (unfold w3; simpl; reflexivity).
  rewrite H3.
  cbn [states_after app].
  rewrite (step_pipelineState _ (Transcription transcription) thinking
             eq_refl).
  rewrite (step_pipelineState _ (VadActivity Ended (Some seg)) transcribing)
    by (cbn [next_state activity_eqb andb]; now rewrite Hlong).
  rewrite (step_pipelineState _ (MainButtonClicked (Returned tt)) listening)
    by (cbn [next_state start state]; now rewrite Hready, Hidle).
  cbn [start state]. now rewrite Hidle.
Qed.

(** C3, as the specification words it, fails: [stopListening] does not
    end a turn that is under way.  With listening stopped while the
    speech is transcribed, the state is idle, and the transcription that
    the pipeline delivers next leads from idle to thinking: listening and
    transcribing are left out. *)
Lemma transcription_after_stop :
  feasible Samples.stop_then_transcription = true
  /\ trace (start Call initial) Samples.stop_then_transcription
     = [idle; idle; listening; transcribing; idle; thinking]
  /\ in_order (trace (start Call initial) Samples.stop_then_transcription)
     = false.
Proof. vm_compute. repeat split; reflexivity. Qed.

(** C6, as the specification words it, fails: a speech segment of 1600
    samples that the VAD has detected is taken from the VAD and dropped,
    no turn is given to the pipeline. *)
Lemma short_segment_not_delegated :
  vadUnsubRef (state (run (start Call initial)
                        [ModelsReady; MainButtonClicked (Returned tt)]))
  = true
  /\ length (samples Samples.short_segment) = 1600
  /\ calls (step (run (start Call initial)
                    [ModelsReady; MainButtonClicked (Returned tt)])
              (VadActivity Ended (Some Samples.short_segment)))
     = [NewVoicePipeline; NewAudioPlayback; NewAudioCapture 16000;
        VadReset; VadOnSpeechActivity; MicStart;
        VadPopSpeechSegment]
  /\ turns_called
       (step (run (start Call initial)
                [ModelsReady; MainButtonClicked (Returned tt)])
          (VadActivity Ended (Some Samples.short_segment))) = 0.
Proof. vm_compute. repeat split; reflexivity. Qed.

Lemma speech_segment_delegated_witness :
  vadUnsubRef (state (run (start Call initial)
                        [ModelsReady; MainButtonClicked (Returned tt)]))
  = true
  /\ 1600 < length (samples Samples.long_segment)
  /\ calls (step (run (start Call initial)
                    [ModelsReady; MainButtonClicked (Returned tt)])
              (VadActivity Ended (Some Samples.long_segment)))
     = [NewVoicePipeline; NewAudioPlayback; NewAudioCapture 16000;
        VadReset; VadOnSpeechActivity; MicStart;
        VadPopSpeechSegment;
        PipelineProcessTurn (samples Samples.long_segment) turn_options].
Proof.
  split; [reflexivity|].
  split; [apply Nat.ltb_lt; vm_compute; reflexivity|].
  apply (speech_segment_delegated
           [ModelsReady; MainButtonClicked (Returned tt)]
           Samples.long_segment).
  - reflexivity.
  - apply Nat.ltb_lt; vm_compute; reflexivity.
Defined.

Lemma pipelineState_by_event_witness :
  pipelineState Samples.voice_ready = idle
  /\ allModelsReady Samples.voice_ready = true
  /\ 1600 < length (samples Samples.long_segment)
  /\ trace (start Call Samples.voice_ready)
       (turn_to_response Samples.long_segment (str "what is a cell")
          [(str "A", str "A"); (str " cell", str "A cell")])
     = [idle; listening; transcribing; thinking; thinking; thinking].
Proof.
  split; [reflexivity|]. split; [reflexivity|].
  split; [apply Nat.ltb_lt; vm_compute; reflexivity|].
  apply (pipelineState_by_event Samples.voice_ready Samples.long_segment
           (str "what is a cell")
           [(str "A", str "A"); (str " cell", str "A cell")]).
  - reflexivity.
  - reflexivity.
  - apply Nat.ltb_lt; vm_compute; reflexivity.
Defined.

End VoiceQATabHandlers.

(** ** Rejected promises *)

Section Rejections.

(** C4.  When the awaited call of the SDK rejects, each of the three
    components catches what was thrown: the handler returns, it has made
    the one call and no other, and the state differs from the state at
    the time of the call only in the message stored, which is
    [err.message] when an [Error] was thrown and otherwise [String(err)]
    in App, [Failed to generate quiz] in QuizTab and [Failed to process
    voice input] in VoiceQATab, and in the busy flag or pipeline state
    set back to idle; QuizTab and VoiceQATab also write the error to the
    console. *)
Theorem rejection_only_reported (err : thrown) (a : App.State)
    (q : QuizTab.State) (tokens : list jsstring) (v : VoiceQATab.State)
    (audio : list float) :
  truthy (trim (QuizTab.topic q)) = true ->
  VoiceQATab.pipelineRef v = true ->
  let stored (fallback : jsstring) :=
    match err with
    | ErrorObject message => message
    | OtherValue _ => fallback
    end in
  let prompt :=
    QuizTab.build_prompt (QuizTab.numQuestions q) (QuizTab.difficulty q)
      (QuizTab.topic q) in
  let q_failed :=
    {| QuizTab.topic := QuizTab.topic q;
       QuizTab.difficulty := QuizTab.difficulty q;
       QuizTab.numQuestions := QuizTab.numQuestions q;
       QuizTab.isGenerating := false;
       QuizTab.questions := [];
       QuizTab.showAnswers := [];
       QuizTab.error := Some (stored (str "Failed to generate quiz")) |} in
  App.on_mount (Threw err) (start App.Call a)
  = (Returned tt,
     {| state :=
          {| App.sdkReady := App.sdkReady a;
             App.sdkError :=
               Some (match err with
                     | ErrorObject message => message
                     | OtherValue as_string => as_string
                     end);
             App.activeTab := App.activeTab a |};
        calls := [App.InitSDK];
        logged := [] |})
  /\ QuizTab.handleGenerate (Threw err) (start QuizTab.Call q)
     = (Returned tt,
        {| state := q_failed;
           calls := [QuizTab.GenerateStream prompt QuizTab.gen_options];
           logged := [(str "Quiz generation failed:", err)] |})
  /\ QuizTab.handleGenerate (Returned (QuizTab.StreamThrows tokens err))
       (start QuizTab.Call q)
     = (Returned tt,
        {| state := q_failed;
           calls := [QuizTab.GenerateStream prompt QuizTab.gen_options;
                     QuizTab.StreamNext];
           logged := [(str "Quiz generation failed:", err)] |})
  /\ VoiceQATab.processTurn audio (Threw err) (start VoiceQATab.Call v)
     = (Returned tt,
        {| state :=
             {| VoiceQATab.pipelineState := VoiceQATab.idle;
                VoiceQATab.transcript := VoiceQATab.transcript v;
                VoiceQATab.response := VoiceQATab.response v;
                VoiceQATab.error :=
                  Some (stored (str "Failed to process voice input"));
                VoiceQATab.conversationHistory :=
                  VoiceQATab.conversationHistory v;
                VoiceQATab.audioCaptureRef := VoiceQATab.audioCaptureRef v;
                VoiceQATab.audioPlaybackRef := VoiceQATab.audioPlaybackRef v;
                VoiceQATab.vadUnsubRef := VoiceQATab.vadUnsubRef v;
                VoiceQATab.pipelineRef := VoiceQATab.pipelineRef v;
                VoiceQATab.allModelsReady := VoiceQATab.allModelsReady v |};
           calls := [VoiceQATab.PipelineProcessTurn audio
                       VoiceQATab.turn_options];
           logged := [(str "Pipeline failed:", err)] |}).
Proof.
  intros Htopic Hpipe stored prompt q_failed.
  split; [destruct err; reflexivity|].
  split; [|split].
  - unfold QuizTab.handleGenerate, bind, get, start; simpl.
    rewrite Htopic. destruct err; reflexivity.
  - unfold QuizTab.handleGenerate, bind, get, start; simpl.
    rewrite Htopic. destruct err; reflexivity.
  - destruct v as [p t r e h cap play unsub pipe ready]; simpl in *.
    subst pipe. destruct err; reflexivity.
Qed.

Lemma rejection_only_reported_witness :
  truthy (trim (QuizTab.topic Samples.quiz_with_topic)) = true
  /\ VoiceQATab.pipelineRef Samples.voice_with_leftovers = true
  /\ App.sdkError
       (state (snd (App.on_mount
                      (Threw (ErrorObject (str "WebGPU is not available")))
                      (start App.Call App.initial))))
     = Some (str "WebGPU is not available")
  /\ QuizTab.error
       (state (snd (QuizTab.handleGenerate
                      (Threw (ErrorObject (str "WebGPU is not available")))
                      (start QuizTab.Call Samples.quiz_with_topic))))
     = Some (str "WebGPU is not available")
  /\ VoiceQATab.processTurn [] (Threw (ErrorObject (str "WebGPU is not available")))
       (start VoiceQATab.Call Samples.voice_with_leftovers)
     = (Returned tt,
        {| state :=
             {| VoiceQATab.pipelineState := VoiceQATab.idle;
                VoiceQATab.transcript := str "what is a cell";
                VoiceQATab.response := str "A cell is the unit of life.";
                VoiceQATab.error := Some (str "WebGPU is not available");
                VoiceQATab.conversationHistory := [];
                VoiceQATab.audioCaptureRef := false;
                VoiceQATab.audioPlaybackRef := true;
                VoiceQATab.vadUnsubRef := false;
                VoiceQATab.pipelineRef := true;
                VoiceQATab.allModelsReady := true |};
           calls := [VoiceQATab.PipelineProcessTurn []
                       VoiceQATab.turn_options];
           logged := [(str "Pipeline failed:",
                       ErrorObject (str "WebGPU is not available"))] |}).
Proof.
  pose proof (rejection_only_reported
                (ErrorObject (str "WebGPU is not available")) App.initial
                Samples.quiz_with_topic [] Samples.voice_with_leftovers []
                eq_refl eq_refl) as (Happ & Hquiz & _ & Hvoice).
  split; [reflexivity|]. split; [reflexivity|].
  split; [now rewrite Happ|]. split; [now rewrite Hquiz|].
  exact Hvoice.
Defined.

(** Thrown values that are no [Error] give the fixed texts. *)
Example rejection_with_other_value :
  QuizTab.error
    (state (snd (QuizTab.handleGenerate (Threw (OtherValue (str "42")))
                   (start QuizTab.Call Samples.quiz_with_topic))))
  = Some (str "Failed to generate quiz")
  /\ VoiceQATab.error
       (state (snd (VoiceQATab.processTurn [] (Threw (OtherValue (str "42")))
                      (start VoiceQATab.Call Samples.voice_with_leftovers))))
     = Some (str "Failed to process voice input")
  /\ App.sdkError
       (state (snd (App.on_mount (Threw (OtherValue (str "42")))
                      (start App.Call App.initial))))
     = Some (str "42").
Proof. repeat split; reflexivity. Qed.

End Rejections.


(* ===================================================================== *)
(** * Further properties of the parser *)
(* ===================================================================== *)

Section ParserParts.

Import QuizTab QuizFormat.

Lemma skip_digits_app (s t r : jsstring) (d : char) :
  skip_digits s = d :: r -> skip_digits (s ++ t) = d :: r ++ t.
Proof.
  induction s as [|c s IH]; simpl; [discriminate|].
  destruct (is_digit c) eqn:Hc; [exact IH|].
  intros [= <- <-]. reflexivity.
Qed.

Lemma match_marker_app (s t r : jsstring) :
  match_marker s = Some r -> match_marker (s ++ t) = Some (r ++ t).
Proof.
  destruct s as [|c s]; simpl; [discriminate|].
  destruct (char_eqb c 81%N); [|discriminate].
  destruct (skip_digits s) as [|d r'] eqn:Hs; [discriminate|].
  rewrite (skip_digits_app _ t _ _ Hs).
  destruct (char_eqb d 58%N); [|discriminate].
  intros [= <-]. reflexivity.
Qed.

Lemma match_marker_at_marker (t r : jsstring) :
  match_marker t = Some r -> at_marker t.
Proof.
  destruct t as [|c t]; simpl; [discriminate|].
  destruct (char_eqb c 81%N) eqn:Hc; [|discriminate].
  apply char_eqb_eq in Hc; subst c. intros _. right. now exists t.
Qed.

Lemma clean_nil (s : jsstring) : clean [] s.
Proof.
  intros pre suf H Hsuf. symmetry in H.
  apply app_eq_nil in H as [_ ->]. congruence.
Qed.

Lemma clean_snoc (cur : jsstring) (c : char) (s : jsstring) :
  clean cur (c :: s) -> match_marker (c :: s) = None ->
  clean (cur ++ [c]) s.
Proof.
  intros Hclean Hm pre suf Heq Hsuf.
  destruct (exists_last Hsuf) as [suf' [x ->]].
  rewrite app_assoc in Heq. apply app_inj_tail in Heq as [-> ->].
  rewrite <- app_assoc. simpl app.
  destruct suf' as [|y suf']; [exact Hm|].
  apply (Hclean pre (y :: suf')); [reflexivity | discriminate].
Qed.

Lemma clean_marker_free (cur s : jsstring) :
  clean cur s -> marker_free cur = true.
Proof.
  induction cur as [|c cur IH]; intros Hclean; [reflexivity|].
  cbn [marker_free].
  destruct (match_marker (c :: cur)) as [r|] eqn:Hm.
  - apply (match_marker_app _ s) in Hm.
    rewrite (Hclean [] (c :: cur)) in Hm; [discriminate|reflexivity|discriminate].
  - apply IH. intros pre suf Heq Hsuf.
    apply (Hclean (c :: pre) suf); [now rewrite Heq | exact Hsuf].
Qed.

Lemma split_from_marker_free (n : nat) :
  forall s cur, length s <= n -> clean cur s ->
                Forall (fun p => marker_free p = true) (split_from cur s).
Proof.
  induction n as [|n IH]; intros s cur Hlen Hclean.
  - destruct s; [|simpl in Hlen; lia].
    rewrite split_from_nil. constructor; [|constructor].
    now apply (clean_marker_free _ []).
  - destruct s as [|c s].
    + rewrite split_from_nil. constructor; [|constructor].
      now apply (clean_marker_free _ []).
    + destruct (match_marker (c :: s)) as [r|] eqn:Hm.
      * rewrite (split_from_match cur _ _ Hm). constructor.
        -- now apply (clean_marker_free _ (c :: s)).
        -- apply IH; [|apply clean_nil].
           apply match_marker_length in Hm. simpl in *. lia.
      * rewrite (split_from_skip _ _ _ Hm).
        apply IH; [simpl in Hlen; lia|]. now apply clean_snoc.
Qed.

Lemma split_nl_head (s l : jsstring) (ls : list jsstring) :
  split_nl s = l :: ls -> exists post, s = l ++ post.
Proof.
  revert l ls; induction s as [|c s IH]; intros l ls; simpl.
  - intros [= <- <-]. now exists [].
  - destruct (char_eqb c nl).
    + intros [= <- <-]. now exists (c :: s).
    + destruct (split_nl s) as [|l0 ls0] eqn:Hs.
      * intros [= <- <-]. destruct s; [now exists []|].
        simpl in Hs. destruct (char_eqb c0 nl); [discriminate|].
        destruct (split_nl s); discriminate.
      * intros [= <- <-]. destruct (IH _ _ eq_refl) as [post ->].
        now exists post.
Qed.

Lemma split_nl_contains (s l : jsstring) :
  In l (split_nl s) -> exists pre post, s = pre ++ l ++ post.
Proof.
  revert l; induction s as [|c s IH]; intros l; simpl.
  - intros [<- | []]. now exists [], [].
  - destruct (char_eqb c nl).
    + intros [<- | Hin].
      * now exists [], (c :: s).
      * destruct (IH _ Hin) as [pre [post ->]]. now exists (c :: pre), post.
    + destruct (split_nl s) as [|l0 ls0] eqn:Hs.
      * intros [<- | []]. exists [], s. reflexivity.
      * intros [<- | Hin].
        -- destruct (split_nl_head _ _ _ Hs) as [post ->].
           now exists [], post.
        -- destruct (IH l (or_intror Hin)) as [pre [post ->]].
           now exists (c :: pre), post.
Qed.

Lemma In_lines_of (part line : jsstring) :
  In line (lines_of part) ->
  exists l, In l (split_nl part) /\ line = trim l /\ line <> [].
Proof.
  unfold lines_of. intros H. apply filter_In in H as [H Ht].
  apply in_map_iff in H as [l [<- Hl]].
  exists l. repeat split; [exact Hl|]. now apply truthy_nonempty.
Qed.

(** X1.  Whatever the completion, no part that the split gives holds a
    match of [/Q\d*:/], so no line of a part begins with [Q:]: the tests
    for [Q:] in the two inner loops never stop them. *)
Theorem parts_hold_no_marker (response part : jsstring) :
  In part (parts response) ->
  marker_free part = true
  /\ (forall line, In line (lines_of part) -> startsWith line Q_ = false).
Proof.
  intros Hin.
  assert (Hfree : marker_free part = true).
  { unfold parts in Hin. apply filter_In in Hin as [Hin _].
    pose proof (split_from_marker_free (length response) response []
                  (Nat.le_refl _) (clean_nil response)) as Hall.
    rewrite Forall_forall in Hall. now apply Hall. }
  split; [exact Hfree|].
  intros line Hline.
  apply In_lines_of in Hline as [l [Hl [-> _]]].
  destruct (split_nl_contains _ _ Hl) as [pre [post Heq]].
  rewrite Heq in Hfree. exact (marker_free_no_Q _ _ _ Hfree).
Qed.

Lemma parts_hold_no_marker_witness :
  In (str " one" ++ nl :: str "A: Q7 is next" ++ [nl])
     (parts (str "Q: one" ++ nl :: str "A: Q7 is next" ++ nl :: str "Q7: two"))
  /\ marker_free (str " one" ++ nl :: str "A: Q7 is next" ++ [nl]) = true.
Proof.
  assert (H : In (str " one" ++ nl :: str "A: Q7 is next" ++ [nl])
                 (parts (str "Q: one" ++ nl :: str "A: Q7 is next" ++ nl
                           :: str "Q7: two")))
    by (vm_compute; left; reflexivity).
  split; [exact H|].
  exact (proj1 (parts_hold_no_marker _ _ H)).
Defined.

Lemma split_from_app_marker (n : nat) :
  forall s cur t r, length s <= n -> match_marker t = Some r ->
    split_from cur (s ++ t) = split_from cur s ++ split_from [] r.
Proof.
  induction n as [|n IH]; intros s cur t r Hlen Ht.
  - destruct s; [|simpl in Hlen; lia].
    rewrite split_from_nil. change ([] ++ t) with t.
    now rewrite (split_from_match cur _ _ Ht).
  - destruct s as [|c s].
    + rewrite split_from_nil. change ([] ++ t) with t.
      now rewrite (split_from_match cur _ _ Ht).
    + destruct (match_marker (c :: s)) as [r'|] eqn:Hm.
      * rewrite (split_from_match cur _ _ Hm).
        rewrite (split_from_match cur _ _ (match_marker_app _ t _ Hm)).
        simpl app. f_equal. apply IH; [|exact Ht].
        apply match_marker_length in Hm. simpl in *. lia.
      * assert (Hm' : match_marker ((c :: s) ++ t) = None).
        { apply match_marker_before;
            [discriminate | now apply (match_marker_at_marker t r) | exact Hm]. }
        simpl app in *.
        rewrite (split_from_skip _ _ _ Hm), (split_from_skip _ _ _ Hm').
        apply IH; [simpl in Hlen; lia | exact Ht].
Qed.

Lemma parts_app_marker (s t r : jsstring) :
  match_marker t = Some r -> parts (s ++ t) = parts s ++ parts t.
Proof.
  intros Ht. unfold parts, split_marker.
  change (split_marker_from (length (s ++ t)) [] (s ++ t))
    with (split_from [] (s ++ t)).
  change (split_marker_from (length s) [] s) with (split_from [] s).
  change (split_marker_from (length t) [] t) with (split_from [] t).
  rewrite (split_from_app_marker (length s) s [] t r (Nat.le_refl _) Ht).
  rewrite (split_from_match [] t r Ht), filter_app.
  reflexivity.
Qed.

(** X2.  Blocks are read one by one: when a text is followed by a text
    that begins with a marker, the items of the whole are the items of
    the first followed by the items of the second. *)
Theorem parseQuizResponse_app (s t : jsstring) :
  match_marker t <> None ->
  parseQuizResponse (s ++ t) = parseQuizResponse s ++ parseQuizResponse t.
Proof.
  intros Ht. destruct (match_marker t) as [r|] eqn:Hm; [|congruence].
  unfold parseQuizResponse.
  rewrite (parts_app_marker s t r Hm), !fold_push_part.
  simpl app. apply flat_map_app.
Qed.

Lemma parseQuizResponse_app_witness :
  match_marker (str "Q2: b" ++ nl :: str "A: y") <> None
  /\ parseQuizResponse ((str "Intro Q: a" ++ nl :: str "A: x" ++ [nl])
                        ++ (str "Q2: b" ++ nl :: str "A: y"))
     = parseQuizResponse (str "Intro Q: a" ++ nl :: str "A: x" ++ [nl])
       ++ parseQuizResponse (str "Q2: b" ++ nl :: str "A: y").
Proof.
  split; [vm_compute; discriminate|].
  apply parseQuizResponse_app. vm_compute; discriminate.
Defined.

(** *** What the items are made of *)

Lemma one_line_app (a b : jsstring) :
  one_line (a ++ b) = one_line a && one_line b.
Proof. unfold one_line. apply forallb_app. Qed.

Lemma split_nl_one_line (s : jsstring) :
  Forall (fun l => one_line l = true) (split_nl s).
Proof.
  induction s as [|c s IH]; simpl; [repeat constructor|].
  destruct (char_eqb c nl) eqn:Hc; [now constructor|].
  destruct (split_nl s) as [|l ls]; [repeat constructor; simpl; now rewrite Hc|].
  inversion IH as [|? ? Hl Hls]; subst.
  constructor; [|exact Hls]. simpl. now rewrite Hc, Hl.
Qed.

Lemma trim_one_line (l : jsstring) :
  one_line l = true -> one_line (trim l) = true.
Proof.
  intros Hl. unfold trim.
  destruct (trimStart_suffix l) as [w Hw].
  destruct (trimEnd_prefix (trimStart l)) as [w' Hw'].
  rewrite Hw, one_line_app in Hl. apply andb_prop in Hl as [_ Hl].
  rewrite Hw', one_line_app in Hl. now apply andb_prop in Hl as [Hl _].
Qed.

Lemma substring_one_line (n : nat) (l : jsstring) :
  one_line l = true -> one_line (substring n l) = true.
Proof.
  unfold substring. intros Hl.
  rewrite <- (firstn_skipn n l), one_line_app in Hl.
  now apply andb_prop in Hl as [_ Hl].
Qed.

Lemma lines_of_trimmed (part : jsstring) :
  Forall trimmed_line (lines_of part).
Proof.
  apply Forall_forall. intros line Hline.
  apply In_lines_of in Hline as [l [Hl [-> _]]].
  split; [|apply trim_idem].
  apply trim_one_line.
  pose proof (split_nl_one_line part) as Hall.
  rewrite Forall_forall in Hall. now apply Hall.
Qed.

Lemma one_line_spaced (a l : jsstring) :
  one_line a = true -> one_line l = true ->
  one_line (a ++ space :: trim l) = true.
Proof.
  intros Ha Hl. rewrite one_line_app, Ha. simpl.
  now apply trim_one_line.
Qed.

Lemma answer_rest_one_line (rest : list jsstring) (acc : jsstring) :
  Forall trimmed_line rest -> one_line acc = true ->
  one_line (answer_rest rest acc) = true.
Proof.
  intros Hrest; revert acc.
  induction Hrest as [|l rest [Hl _] _ IH]; intros acc Hacc; [exact Hacc|].
  cbn [answer_rest].
  destruct (negb (startsWith l E_) && negb (startsWith l Q_)); [|exact Hacc].
  apply IH. destruct (negb (startsWith l A_)); [|exact Hacc].
  now apply one_line_spaced.
Qed.

Lemma explanation_rest_one_line (rest : list jsstring) (acc : jsstring) :
  Forall trimmed_line rest -> one_line acc = true ->
  one_line (explanation_rest rest acc) = true.
Proof.
  intros Hrest; revert acc.
  induction Hrest as [|l rest [Hl _] _ IH]; intros acc Hacc; [exact Hacc|].
  cbn [explanation_rest].
  destruct (negb (startsWith l Q_) && negb (startsWith l A_)); [|exact Hacc].
  apply IH. destruct (negb (startsWith l E_)); [|exact Hacc].
  now apply one_line_spaced.
Qed.

Lemma scan_lines_fields (lines : list jsstring) (q a e : jsstring) :
  Forall trimmed_line lines ->
  trimmed_line q -> one_line a = true -> one_line e = true ->
  let '(q', a', e') := scan_lines lines q a e in
  trimmed_line q' /\ one_line a' = true /\ one_line e' = true.
Proof.
  intros Hlines; revert q a e.
  induction Hlines as [|line rest Hline Hrest IH]; intros q a e Hq Ha He.
  - simpl. split; [exact Hq | split; assumption].
  - cbn [scan_lines]. destruct Hline as [Hl1 Hl2].
    destruct (startsWith line A_).
    + apply IH; [exact Hq | | exact He].
      apply answer_rest_one_line; [exact Hrest|].
      now apply trim_one_line, substring_one_line.
    + destruct (startsWith line E_).
      * apply IH; [exact Hq | exact Ha |].
        apply explanation_rest_one_line; [exact Hrest|].
        now apply trim_one_line, substring_one_line.
      * destruct (truthy q) eqn:Htq; cbn [negb andb].
        -- now apply IH.
        -- apply IH; [|exact Ha | exact He]. now split.
Qed.

(** X3.  Whatever the completion, no field of an item holds a line feed,
    and the question has no white space left at either end. *)
Theorem parsed_items_single_line (response : jsstring) (item : QuizQuestion) :
  In item (parseQuizResponse response) ->
  one_line (question item) = true
  /\ one_line (answer item) = true
  /\ one_line (explanation item) = true
  /\ trim (question item) = question item.
Proof.
  unfold parseQuizResponse. rewrite fold_push_part. simpl app.
  intros Hin. apply in_flat_map in Hin as [part [_ Hin]].
  unfold items_of_part, parse_part in Hin.
  pose proof (scan_lines_fields (lines_of part) [] [] []
                (lines_of_trimmed part)) as H.
  destruct (scan_lines (lines_of part) [] [] []) as [[q a] e].
  destruct H as ([Hq1 Hq2] & Ha & He); try reflexivity; [now split|].
  destruct (truthy q && truthy a); [|contradiction].
  destruct Hin as [<- | []]. simpl. now repeat split.
Qed.

Lemma parsed_items_single_line_witness :
  In {| question := str "a"; answer := str "x y"; explanation := [] |}
     (parseQuizResponse (str "Q:  a " ++ nl :: str "A: x" ++ nl :: str " y "))
  /\ one_line (str "x y") = true.
Proof.
  assert (H : In {| question := str "a"; answer := str "x y";
                    explanation := [] |}
                 (parseQuizResponse
                    (str "Q:  a " ++ nl :: str "A: x" ++ nl :: str " y ")))
    by (vm_compute; left; reflexivity).
  split; [exact H|].
  exact (proj1 (proj2 (parsed_items_single_line _ _ H))).
Defined.

(** *** Completions without a marker *)

Lemma split_marker_marker_free (response : jsstring) :
  marker_free response = true -> split_marker response = [response].
Proof.
  intros Hfree. unfold split_marker.
  change (split_marker_from (length response) [] response)
    with (split_from [] response).
  rewrite <- (app_nil_r response) at 1.
  rewrite (split_from_body response [] [] Hfree (or_introl eq_refl)).
  apply split_from_nil.
Qed.

(** X4.  A completion in which [/Q\d*:/] matches nowhere is read as one
    block: unless it is blank, it gives the item of the whole text, if
    that has a question and an answer, and nothing else. *)
Theorem parseQuizResponse_without_marker (response : jsstring) :
  marker_free response = true ->
  truthy (trim response) = true ->
  parseQuizResponse response
  = match parse_part response with
    | Some item => [item]
    | None => []
    end.
Proof.
  intros Hfree Htrim. unfold parseQuizResponse, parts.
  rewrite (split_marker_marker_free response Hfree).
  cbn [filter]. rewrite Htrim. cbn [fold_left]. unfold push_part.
  now destruct (parse_part response).
Qed.

Lemma parseQuizResponse_without_marker_witness :
  marker_free (str "What is 2+2?" ++ nl :: str "A: 4") = true
  /\ truthy (trim (str "What is 2+2?" ++ nl :: str "A: 4")) = true
  /\ parseQuizResponse (str "What is 2+2?" ++ nl :: str "A: 4")
     = [ {| question := str "What is 2+2?"; answer := str "4";
            explanation := [] |} ].
Proof.
  split; [vm_compute; reflexivity|]. split; [vm_compute; reflexivity|].
  rewrite parseQuizResponse_without_marker; vm_compute; reflexivity.
Defined.

Lemma blank_marker_free (s : jsstring) :
  forallb is_ws s = true -> marker_free s = true.
Proof.
  induction s as [|c s IH]; [reflexivity|]. intros H.
  cbn [forallb] in H. apply andb_prop in H as [Hc Hs].
  cbn [marker_free].
  assert (Hm : match_marker (c :: s) = None).
  { simpl. destruct (char_eqb c 81%N) eqn:HQ; [|reflexivity].
    apply char_eqb_eq in HQ; subst c. discriminate. }
  rewrite Hm. now apply IH.
Qed.

(** X5.  A completion that is empty or holds only white space gives no
    item. *)
Theorem parseQuizResponse_blank (response : jsstring) :
  forallb is_ws response = true -> parseQuizResponse response = [].
Proof.
  intros Hblank. unfold parseQuizResponse, parts.
  rewrite (split_marker_marker_free response (blank_marker_free _ Hblank)).
  cbn [filter]. rewrite truthy_trim, Hblank. reflexivity.
Qed.

Lemma parseQuizResponse_blank_witness :
  forallb is_ws (space :: nl :: [9%N; 13%N; 160%N]) = true
  /\ parseQuizResponse (space :: nl :: [9%N; 13%N; 160%N]) = [].
Proof.
  split; [reflexivity|]. apply parseQuizResponse_blank. reflexivity.
Defined.

End ParserParts.

(* ===================================================================== *)
(** * Further properties of QuizTab *)
(* ===================================================================== *)

Section QuizTabState.

Import QuizTab.

Lemma toggleAnswer_once (w : world State Call) (i j : nat) :
  shown (showAnswers (state (snd (toggleAnswer i w)))) j
  = if i =? j then negb (shown (showAnswers (state w)) j)
    else shown (showAnswers (state w)) j.
Proof.
  unfold toggleAnswer, modify; simpl.
  destruct (i =? j) eqn:Hij; [|reflexivity].
  apply Nat.eqb_eq in Hij. now subst j.
Qed.

(** X6.  [toggleAnswer] flips whether the answer at its index is shown
    and leaves every other answer as it was; toggling the same index
    twice shows what was shown before; the questions stay. *)
Theorem toggleAnswer_shown (w : world State Call) (i : nat) :
  let w1 := snd (toggleAnswer i w) in
  let w2 := snd (toggleAnswer i w1) in
  (forall j, shown (showAnswers (state w1)) j
             = if i =? j then negb (shown (showAnswers (state w)) j)
               else shown (showAnswers (state w)) j)
  /\ (forall j, shown (showAnswers (state w2)) j
                = shown (showAnswers (state w)) j)
  /\ questions (state w1) = questions (state w)
  /\ calls w1 = calls w.
Proof.
  intros w1 w2.
  split; [intros j; apply toggleAnswer_once|].
  split; [|split; reflexivity].
  intros j. unfold w2, w1. rewrite !toggleAnswer_once.
  destruct (i =? j); [apply negb_involutive | reflexivity].
Qed.

(** X7.  When the topic is not blank, [handleGenerate] of QuizTab returns
    however the generation ends: it does not throw, the busy flag is off
    again, every answer is hidden, the topic, difficulty and count are
    as they were, and either an error message is stored and the list of
    questions is empty, or no message is stored and the list is not
    empty. *)
Theorem handleGenerate_settles (s : State) (generated : outcome stream) :
  truthy (trim (topic s)) = true ->
  let r := handleGenerate generated (start Call s) in
  let s' := state (snd r) in
  fst r = Returned tt
  /\ isGenerating s' = false
  /\ (forall i, shown (showAnswers s') i = false)
  /\ topic s' = topic s
  /\ difficulty s' = difficulty s
  /\ numQuestions s' = numQuestions s
  /\ (error s' = None <-> questions s' <> []).
Proof.
  intros Htopic r s'. unfold s', r, handleGenerate, bind, get, start.
  simpl. rewrite Htopic. simpl.
  destruct generated as [[tokens|tokens err]|err]; simpl.
  - destruct (parseQuizResponse (concat tokens)) as [|item items] eqn:Hp;
      simpl; repeat split; try reflexivity; try congruence; try discriminate.
  - repeat split; try reflexivity; try congruence; try discriminate.
  - repeat split; try reflexivity; try congruence; try discriminate.
Qed.

Lemma handleGenerate_settles_witness :
  truthy (trim (topic Samples.quiz_with_topic)) = true
  /\ isGenerating
       (state (snd (handleGenerate
                      (Returned (StreamThrows [str "Q: a"]
                                   (ErrorObject (str "out of memory"))))
                      (start Call Samples.quiz_with_topic)))) = false.
Proof.
  split; [reflexivity|].
  apply (handleGenerate_settles Samples.quiz_with_topic
           (Returned (StreamThrows [str "Q: a"]
                        (ErrorObject (str "out of memory"))))).
  reflexivity.
Defined.

End QuizTabState.

(* ===================================================================== *)
(** * Further properties of TextToAudioTab *)
(* ===================================================================== *)

Section TextToAudioTabState.

Import TextToAudioTab.

(** X8.  When the text is not blank, [handleGenerate] of TextToAudioTab
    returns however the synthesis and the playback end: it does not
    throw, the busy flag is off again, the error stored is the message of
    what failed first (none when nothing failed), and stats are shown
    exactly when the synthesis succeeded, also when the playback failed
    after it. *)
Theorem audio_handleGenerate_settles (s : State) (env : Answers) :
  truthy (trim (text s)) = true ->
  let r := handleGenerate env (start Call s) in
  let s' := state (snd r) in
  fst r = Returned tt
  /\ isGenerating s' = false
  /\ error s'
     = match failure env with
       | Some err => Some (message_or err (str "Failed to generate audio"))
       | None => None
       end
  /\ (audioStats s' = None <-> exists err, synthesized env = Threw err)
  /\ text s' = text s.
Proof.
  intros Htext r s'.
  unfold s', r, handleGenerate, failure, playback_failure,
    bind, get, start, try_finally, try_catch, when.
  destruct s as [txt gen err stats ctx src]; simpl in *.
  rewrite Htext; simpl.
  destruct env as [t0 syn t1 susp res buf started]; simpl.
  destruct src, ctx, syn as [result|e]; simpl;
    try (repeat split; try reflexivity;
         try (intros _; now exists e); discriminate).
  all: destruct susp; simpl;
    destruct res as [[]|e1]; simpl;
    destruct buf as [[]|e2]; simpl;
    destruct started as [[]|e3]; simpl;
    repeat split; try reflexivity; try discriminate;
    intros [e Habs]; discriminate.
Qed.

Lemma audio_handleGenerate_settles_witness :
  truthy (trim (text Samples.audio_with_text)) = true
  /\ error (state (snd (handleGenerate
              {| startTime := 0%float;
                 synthesized := Returned {| audioData := [];
                                            resultSampleRate := 22050%float |};
                 endTime := 5%float;
                 suspended := false;
                 resumed := Returned tt;
                 bufferCreated := Threw (ErrorObject (str "length is 0"));
                 sourceStarted := Returned tt |}
              (start Call Samples.audio_with_text))))
     = Some (str "length is 0").
Proof.
  split; [reflexivity|].
  apply (audio_handleGenerate_settles Samples.audio_with_text
           {| startTime := 0%float;
              synthesized := Returned {| audioData := [];
                                         resultSampleRate := 22050%float |};
              endTime := 5%float;
              suspended := false;
              resumed := Returned tt;
              bufferCreated := Threw (ErrorObject (str "length is 0"));
              sourceStarted := Returned tt |}).
  reflexivity.
Defined.

Lemma run_audio_invariant (P : world State Call -> Prop) :
  (forall w e, P w -> P (step w e)) ->
  forall es w, P w -> P (run w es).
Proof.
  intros Hstep es; induction es as [|e es IH]; intros w Hw; [exact Hw|].
  simpl. apply IH, Hstep, Hw.
Qed.

Lemma step_context_kept (w : world State Call) (e : event) :
  context_kept w -> context_kept (step w e).
Proof.
  destruct w as [[txt gen err stats ctx src] cs lg].
  unfold context_kept, contexts_created; simpl. intros [Hc Hs].
  destruct e as [t|sample|env| |]; unfold step, handle, loadSampleText,
    handleStop, onended, handleGenerate, bind, get, modify, await, invoke,
    console_error, try_finally, try_catch, when, ret; simpl.
  - now split.
  - now split.
  - destruct (negb (truthy (trim txt))); simpl; [now split|].
    destruct env as [t0 syn t1 susp res buf started]; simpl.
    destruct src, ctx, syn as [result|e]; simpl;
      try (destruct susp; simpl;
           destruct res as [[]|e1]; simpl;
           destruct buf as [[]|e2]; simpl;
           destruct started as [[]|e3]; simpl);
      rewrite ?filter_app, ?length_app; simpl;
      (split; [try lia | try (intros; reflexivity); try exact Hs;
                         try discriminate]);
      try (specialize (Hs eq_refl); discriminate).
  - destruct src; simpl; rewrite ?filter_app, ?length_app; simpl;
      (split; [lia | discriminate]).
  - split; [exact Hc | discriminate].
Qed.

(** X9.  However often audio is generated, stopped, or ends, the tab
    makes at most one [AudioContext], and it holds a source node only
    once it has made the context. *)
Theorem audio_context_made_once (es : list event) :
  let w := run (start Call initial) es in
  contexts_created w <= 1
  /\ (audioSourceRef (state w) = true -> audioContextRef (state w) = true).
Proof.
  intros w.
  assert (H : context_kept w).
  { apply run_audio_invariant; [apply step_context_kept|].
    split; [reflexivity | discriminate]. }
  destruct H as [Hc Hs]. split; [|exact Hs].
  rewrite Hc. destruct (audioContextRef (state w)); lia.
Qed.

(** X10.  [handleStop] stops the source node if one is held, and only
    then; afterwards none is held, and a second [handleStop] does
    nothing. *)
Theorem handleStop_releases (w : world State Call) :
  let w1 := snd (handleStop w) in
  audioSourceRef (state w1) = false
  /\ calls w1
     = calls w ++ (if audioSourceRef (state w) then [SourceStop] else [])
  /\ snd (handleStop w1) = w1.
Proof.
  destruct w as [[txt gen err stats ctx src] cs lg].
  unfold handleStop, bind, get, modify, invoke, await, when, ret; simpl.
  destruct src; simpl; rewrite ?app_nil_r; repeat split; reflexivity.
Qed.

End TextToAudioTabState.

(* ===================================================================== *)
(** * Further properties of VoiceQATab *)
(* ===================================================================== *)

Section VoiceQATabState.

Import VoiceQATab.

Ltac unfold_voice :=
  unfold step, handle, main_button, startListening, stopListening,
    onSpeechActivity, processTurn_called, processTurn_catch,
    onTranscription, onResponseToken, onResponseComplete,
    onSynthesisComplete, onStateChange, clearHistory, handleLoadModels,
    effect_cleanup, effect_body, user_text,
    rendered, evaluate,
    bind, get, modify, await, invoke, console_error, try_catch, when, ret.

Ltac split_cases :=
  repeat match goal with
    | |- context [if ?b then _ else _] => destruct b eqn:?; simpl
    | |- context [match ?x with _ => _ end] => destruct x eqn:?; simpl
    end.

Lemma run_world_invariant (P : world State Call -> Prop) :
  (forall w e, P w -> P (step w e)) ->
  forall es w, P w -> P (run w es).
Proof.
  intros Hstep es; induction es as [|e es IH]; intros w Hw; [exact Hw|].
  simpl. apply IH, Hstep, Hw.
Qed.

(** X11.  Starting to listen and stopping again gives back what was
    taken: from an idle state with the models ready and nothing held, the
    main button pressed twice opens the capture, subscribes to the VAD
    and starts the microphone, then stops the microphone, unsubscribes
    and resets the VAD; afterwards the state is idle, no error is stored,
    the transcript and the response are empty, and the history and what
    is held are as before. *)
Theorem listen_then_stop (s : State) (started : outcome unit) :
  allModelsReady s = true ->
  pipelineState s = idle ->
  audioCaptureRef s = false ->
  vadUnsubRef s = false ->
  run (start Call s) [MainButtonClicked (Returned tt);
                      MainButtonClicked started]
  = {| state :=
         {| pipelineState := idle;
            transcript := [];
            response := [];
            error := None;
            conversationHistory := conversationHistory s;
            audioCaptureRef := false;
            audioPlaybackRef := audioPlaybackRef s;
            vadUnsubRef := false;
            pipelineRef := pipelineRef s;
            allModelsReady := true |};
       calls := [NewAudioCapture capture_rate; VadReset; VadOnSpeechActivity;
                 MicStart; MicStop; VadUnsubscribe; VadReset];
       logged := [] |}.
Proof.
  destruct s as [p t r err h cap play unsub pipe ready]; simpl.
  intros -> -> -> ->. reflexivity.
Qed.

Lemma listen_then_stop_witness :
  allModelsReady Samples.voice_with_leftovers = true
  /\ pipelineState Samples.voice_with_leftovers = idle
  /\ audioCaptureRef Samples.voice_with_leftovers = false
  /\ vadUnsubRef Samples.voice_with_leftovers = false
  /\ transcript Samples.voice_with_leftovers = str "what is a cell"
  /\ response Samples.voice_with_leftovers
     = str "A cell is the unit of life."
  /\ error Samples.voice_with_leftovers = Some (str "Permission denied")
  /\ run (start Call Samples.voice_with_leftovers)
       [MainButtonClicked (Returned tt); MainButtonClicked (Returned tt)]
     = {| state :=
            {| pipelineState := idle;
               transcript := [];
               response := [];
               error := None;
               conversationHistory := [];
               audioCaptureRef := false;
               audioPlaybackRef := true;
               vadUnsubRef := false;
               pipelineRef := true;
               allModelsReady := true |};
          calls := [NewAudioCapture 16000; VadReset; VadOnSpeechActivity;
                    MicStart; MicStop; VadUnsubscribe; VadReset];
          logged := [] |}.
Proof.
  repeat (split; [reflexivity|]).
  apply (listen_then_stop Samples.voice_with_leftovers (Returned tt));
    reflexivity.
Defined.

Lemma step_waiting (w : world State Call) (e : event) :
  waiting w -> waiting (step w e).
Proof.
  destruct w as [[p t r err h cap play unsub pipe ready] cs lg].
  unfold waiting; simpl. intros Hw.
  destruct ready.
  - (* ready never goes back *)
    destruct e; try (destruct result); unfold_voice; simpl; split_cases;
      intros; discriminate.
  - destruct (Hw eq_refl) as (-> & -> & -> & Hcs).
    destruct e; try (destruct result); unfold_voice; simpl; split_cases;
      intros Hr;
      try discriminate; repeat split; try reflexivity;
      rewrite ?filter_app, ?Hcs; reflexivity.
Qed.

(** X12.  Before all four models are ready the tab takes nothing: after
    any sequence of events that leaves the models not ready, no capture
    was opened, no microphone started, no subscription to the VAD made
    and no turn given to the pipeline, and no pipeline, capture or
    subscription is held. *)
Theorem nothing_before_ready (es : list event) :
  let w := run (start Call initial) es in
  allModelsReady (state w) = false ->
  filter uses_models (calls w) = []
  /\ pipelineRef (state w) = false
  /\ audioCaptureRef (state w) = false
  /\ vadUnsubRef (state w) = false.
Proof.
  intros w Hready.
  assert (H : waiting w).
  { apply run_world_invariant; [apply step_waiting|].
    intros _. now repeat split. }
  destruct (H Hready) as (H1 & H2 & H3 & H4). now repeat split.
Qed.

Lemma nothing_before_ready_witness :
  allModelsReady
    (state (run (start Call initial)
              [MainButtonClicked (Returned tt);
               LoadModelsClicked (Threw (ErrorObject (str "offline")));
               VadActivity Ended (Some Samples.long_segment)])) = false
  /\ filter uses_models
       (calls (run (start Call initial)
                 [MainButtonClicked (Returned tt);
                  LoadModelsClicked (Threw (ErrorObject (str "offline")));
                  VadActivity Ended (Some Samples.long_segment)])) = [].
Proof.
  split; [reflexivity|].
  apply (nothing_before_ready
           [MainButtonClicked (Returned tt);
            LoadModelsClicked (Threw (ErrorObject (str "offline")));
            VadActivity Ended (Some Samples.long_segment)]).
  reflexivity.
Defined.

Lemma step_pipeline_kept (w : world State Call) (e : event) :
  pipeline_kept w -> pipeline_kept (step w e).
Proof.
  destruct w as [[p t r err h cap play unsub pipe ready] cs lg].
  unfold pipeline_kept, pipelines_created, turns_called; simpl.
  intros (Hc & -> & Ht).
  destruct e; try (destruct result); unfold_voice; simpl; split_cases;
    rewrite ?filter_app, ?length_app; simpl;
    repeat split; try reflexivity; try lia;
    try (intros Hlt; apply Ht; lia);
    try (destruct pipe; simpl in *; congruence).
  all: destruct pipe; simpl in *; try discriminate; try lia;
    try reflexivity; intros; try reflexivity; try (apply Ht; lia).
Qed.

Lemma run_pipeline_kept (es : list event) :
  pipeline_kept (run (start Call initial) es).
Proof.
  apply run_world_invariant; [apply step_pipeline_kept|].
  unfold pipeline_kept, pipelines_created, turns_called; simpl.
  repeat split; try reflexivity. lia.
Qed.

(** X13.  Whatever happens to the tab, it makes at most one
    [VoicePipeline], and it holds an [AudioPlayback] exactly when it
    holds the pipeline. *)
Theorem pipeline_made_once (es : list event) :
  let w := run (start Call initial) es in
  pipelines_created w <= 1
  /\ audioPlaybackRef (state w) = pipelineRef (state w).
Proof.
  intros w. destruct (run_pipeline_kept es) as (Hc & Hp & _).
  fold w in Hc, Hp. split; [|exact Hp].
  rewrite Hc. destruct (pipelineRef (state w)); lia.
Qed.

(** X14.  Once a turn was given to the pipeline, the playback is there:
    at the end of a synthesis the audio is played, with the samples and
    the sample rate as they come, and the state is set to idle only if
    the playback ends well. *)
Theorem synthesized_audio_played (es : list event) (audio : list float)
    (sampleRate : float) (played : outcome unit) :
  let w := run (start Call initial) es in
  0 < turns_called w ->
  let w' := step w (SynthesisComplete audio sampleRate played) in
  calls w' = calls w ++ [PlaybackPlay audio sampleRate]
  /\ pipelineState (state w')
     = match played with
       | Returned _ => idle
       | Threw _ => pipelineState (state w)
       end.
Proof.
  intros w Hturn w'.
  destruct (run_pipeline_kept es) as (_ & Hp & Ht). fold w in Hp, Ht.
  specialize (Ht Hturn). rewrite Ht in Hp.
  unfold w'. clearbody w.
  destruct w as [[p t r err h cap play unsub pipe ready] cs lg].
  simpl in *. subst play.
  unfold_voice; simpl. destruct played as [[]|e]; simpl; split; reflexivity.
Qed.

Lemma synthesized_audio_played_witness :
  0 < turns_called
        (run (start Call initial)
           [ModelsReady; MainButtonClicked (Returned tt);
            VadActivity Ended (Some Samples.long_segment)])
  /\ calls (step (run (start Call initial)
                    [ModelsReady; MainButtonClicked (Returned tt);
                     VadActivity Ended (Some Samples.long_segment)])
              (SynthesisComplete [1%float] 22050%float (Returned tt)))
     = calls (run (start Call initial)
                [ModelsReady; MainButtonClicked (Returned tt);
                 VadActivity Ended (Some Samples.long_segment)])
       ++ [PlaybackPlay [1%float] 22050%float].
Proof.
  split; [vm_compute; apply le_n|].
  apply (synthesized_audio_played
           [ModelsReady; MainButtonClicked (Returned tt);
            VadActivity Ended (Some Samples.long_segment)]
           [1%float] 22050%float (Returned tt)).
  vm_compute; apply le_n.
Defined.

(** X15.  [stopListening] gives back what is held and nothing else: it
    stops the capture if one is held, unsubscribes if a subscription is
    held, resets the VAD, and leaves the state idle with neither held; a
    second [stopListening] only resets the VAD again. *)
Theorem stopListening_releases (w : world State Call) :
  let w1 := snd (stopListening w) in
  pipelineState (state w1) = idle
  /\ audioCaptureRef (state w1) = false
  /\ vadUnsubRef (state w1) = false
  /\ calls w1
     = calls w
       ++ (if audioCaptureRef (state w) then [MicStop] else [])
       ++ (if vadUnsubRef (state w) then [VadUnsubscribe] else [])
       ++ [VadReset]
  /\ snd (stopListening w1)
     = {| state := state w1; calls := calls w1 ++ [VadReset];
          logged := logged w1 |}.
Proof.
  destruct w as [[p t r err h cap play unsub pipe ready] cs lg].
  unfold_voice; simpl.
  destruct cap, unsub; simpl; rewrite <- ?app_assoc; simpl;
    repeat split; reflexivity.
Qed.

End VoiceQATabState.

(* ===================================================================== *)
(** * Further properties of App *)
(* ===================================================================== *)

Section AppView.

Import App.

(** X16.  Once [initSDK] has settled, App shows the tabs, with the quiz
    tab active, if it resolved, and the error screen with the message if
    it rejected; when the message is the empty string the error screen is
    not shown and the loading screen stays. *)
Theorem view_after_mount (initialised : outcome unit) :
  render (state (snd (on_mount initialised (start Call initial))))
  = match initialised with
    | Returned _ => TabView quiz
    | Threw err =>
        if truthy (message_or_String err)
        then ErrorView (message_or_String err)
        else LoadingView
    end.
Proof.
  destruct initialised as [[]|[m|m]]; [reflexivity| |];
    destruct m; reflexivity.
Qed.

End AppView.
